(** * mcp-compute-scout: the resource-checking engine

    A shallow embedding of [parsers.py] and [server_checker.py] (with the
    parts of [config.py] they call), and the properties of the engine stated
    over it.

    Conventions of the embedding.
    - A Python [str] is a [string]; characters are bytes, and the character
      classes of Python (whitespace, decimal digits, letter case) are the
      ASCII ones.
    - A Python [float] is [pyfloat]: an exact rational, an infinity or NaN.
      Arithmetic is exact: binary rounding and overflow are not modelled,
      and [round] breaks a decimal tie on the exact value.
    - A Python [dict] with string keys is a [gmap string pyval]; a key bound
      to [None] is a present key holding [PNone].
    - A call that may raise returns [res]; code running against the remote
      hosts and the clock lives in the state-and-exception monad [M].
    - [asyncio.gather] over the thread pool is a list of tasks, started in
      order and completed in an order given as a schedule.

    The file has three parts: the embedding, the notions with which the
    properties are stated, and the properties. *)

From Stdlib Require Import ZArith QArith Qround Lqa Ascii String List Lia.
From Stdlib Require Import Sorted.
From stdpp Require Import base option list gmap strings pretty.

#[local] Open Scope Z_scope.

(** ** Exceptions and results *)

Inductive exc_class :=
  | CException | CValueError | CTypeError | CKeyError | CIndexError
  | CZeroDivisionError | CTimeoutExpired | COSError.

(** An exception object: its class and [str(e)]. *)
Record exn := Exn { exn_class : exc_class; exn_str : string }.

Inductive res (A : Type) :=
  | Ok (a : A)
  | Raise (e : exn).
Arguments Ok {A} a.
Arguments Raise {A} e.

Definition exc_class_eqb (c d : exc_class) : bool :=
  match c, d with
  | CException, CException | CValueError, CValueError | CTypeError, CTypeError
  | CKeyError, CKeyError | CIndexError, CIndexError
  | CZeroDivisionError, CZeroDivisionError
  | CTimeoutExpired, CTimeoutExpired | COSError, COSError => true
  | _, _ => false
  end.

(** [except cls:] catches [e] when [e]'s class is [cls] or derives from it;
    every class here derives from [Exception] and from nothing else listed. *)
Definition isinstance (e : exn) (cls : exc_class) : bool :=
  match cls with
  | CException => true
  | _ => exc_class_eqb (exn_class e) cls
  end.

#[global] Instance res_ret : MRet res := fun _ a => Ok a.
#[global] Instance res_bind : MBind res := fun _ _ k r =>
  match r with
  | Ok a => k a
  | Raise e => Raise e
  end.

#[global] Instance res_fmap : FMap res := fun _ _ f r =>
  match r with
  | Ok a => Ok (f a)
  | Raise e => Raise e
  end.

(** [try: body except (c1, c2, ...): handler] for a pure body. *)
Definition try_except {A} (body : res A) (classes : list exc_class)
    (handler : exn -> res A) : res A :=
  match body with
  | Ok a => Ok a
  | Raise e => if existsb (isinstance e) classes then handler e else Raise e
  end.

(** [for x in l: acc = body(x, acc)], stopping at the first exception that
    leaves the body. *)
Definition for_each {A S} (l : list A) (body : A -> S -> res S) (init : S)
    : res S :=
  fold_left (fun acc x => s ← acc; body x s) l (Ok init).

(** ** Python strings *)

Module Str.

Definition code (c : ascii) : N := N_of_ascii c.

(** [str.isspace] on ASCII: TAB, LF, VT, FF, CR, FS, GS, RS, US and space. *)
Definition is_space (c : ascii) : bool :=
  let n := code c in
  ((9 <=? n) && (n <=? 13) || (28 <=? n) && (n <=? 32))%N.

Definition is_digit (c : ascii) : bool :=
  let n := code c in ((48 <=? n) && (n <=? 57))%N.

Definition digit_val (c : ascii) : Z := Z.of_N (code c) - 48.

Definition lower_char (c : ascii) : ascii :=
  let n := code c in
  if ((65 <=? n) && (n <=? 90))%N then ascii_of_N (n + 32) else c.

Fixpoint lower (s : string) : string :=
  match s with
  | EmptyString => EmptyString
  | String c s' => String (lower_char c) (lower s')
  end.

Definition is_empty (s : string) : bool :=
  match s with EmptyString => true | _ => false end.

Fixpoint lstrip_by (p : ascii -> bool) (s : string) : string :=
  match s with
  | EmptyString => EmptyString
  | String c s' => if p c then lstrip_by p s' else s
  end.

Fixpoint rstrip_by (p : ascii -> bool) (s : string) : string :=
  match s with
  | EmptyString => EmptyString
  | String c s' =>
      let r := rstrip_by p s' in
      if is_empty r && p c then EmptyString else String c r
  end.

(** [s.strip()] *)
Definition strip (s : string) : string :=
  rstrip_by is_space (lstrip_by is_space s).

(** [s.rstrip(chars)] for a one-character [chars]. *)
Definition rstrip_char (ch : ascii) (s : string) : string :=
  rstrip_by (Ascii.eqb ch) s.

(** [sub in s] *)
Fixpoint contains (sub s : string) : bool :=
  String.prefix sub s ||
  match s with
  | EmptyString => false
  | String _ s' => contains sub s'
  end.

Definition cons_head (c : ascii) (l : list string) : list string :=
  match l with
  | h :: t => String c h :: t
  | [] => [String c EmptyString]
  end.

(** [s.split(sep)] for a one-character [sep]: never an empty list. *)
Fixpoint split (sep : ascii) (s : string) : list string :=
  match s with
  | EmptyString => [EmptyString]
  | String c s' =>
      if Ascii.eqb c sep then EmptyString :: split sep s'
      else cons_head c (split sep s')
  end.

(** [re.split(r'[,\s]+', s)]: the separators are the maximal runs of
    commas and whitespace; [in_sep] tells that the previous character
    belonged to a separator. *)
Definition is_list_sep (c : ascii) : bool :=
  Ascii.eqb c "," || is_space c.

Fixpoint re_split_go (in_sep : bool) (s : string) : list string :=
  match s with
  | EmptyString => [EmptyString]
  | String c s' =>
      if is_list_sep c then
        if in_sep then re_split_go true s'
        else EmptyString :: re_split_go true s'
      else cons_head c (re_split_go false s')
  end.

Definition re_split_commas_spaces (s : string) : list string :=
  re_split_go false s.

End Str.

(** ** Python numbers *)

Inductive pyfloat :=
  | FFin (q : Q)
  | FInf (negative : bool)
  | FNaN.

Definition value_error (what : string) : exn :=
  Exn CValueError what.

(** A [digitpart]: decimal digits, single underscores allowed between two
    digits.  [prev] tells that the previous character was a digit. *)
Fixpoint digitpart_go (prev : bool) (s : string) : option (list Z) :=
  match s with
  | EmptyString => if prev then Some [] else None
  | String c s' =>
      if Str.is_digit c then cons (Str.digit_val c) <$> digitpart_go true s'
      else if Ascii.eqb c "_" then
        if prev then digitpart_go false s' else None
      else None
  end.

Definition digitpart (s : string) : option (list Z) := digitpart_go false s.

Definition digits_value (ds : list Z) : Z :=
  fold_left (fun acc d => 10 * acc + d) ds 0.

(** An optional sign: [(negative, rest)]. *)
Definition split_sign (s : string) : bool * string :=
  match s with
  | String "-" s' => (true, s')
  | String "+" s' => (false, s')
  | _ => (false, s)
  end.

(** [int(s)] for a string [s], base 10. *)
Definition py_int (s : string) : res Z :=
  let '(neg, body) := split_sign (Str.strip s) in
  match digitpart body with
  | Some ds => Ok (if neg then - digits_value ds else digits_value ds)
  | None => Raise (value_error "invalid literal for int() with base 10")
  end.

(** The first occurrence of a character satisfying [p] cuts [s] in two. *)
Fixpoint cut_at (p : ascii -> bool) (s : string) : string * option string :=
  match s with
  | EmptyString => (EmptyString, None)
  | String c s' =>
      if p c then (EmptyString, Some s')
      else let '(a, b) := cut_at p s' in (String c a, b)
  end.

Definition is_exp_mark (c : ascii) : bool := Ascii.eqb c "e" || Ascii.eqb c "E".

(** [number ::= [digitpart] "." digitpart | digitpart ["."]], as the pair of
    the digits before and after the point. *)
Definition float_mantissa (s : string) : option (list Z * list Z) :=
  match cut_at (Ascii.eqb ".") s with
  | (ip, None) => ds ← digitpart ip; Some (ds, [])
  | (ip, Some fp) =>
      match Str.is_empty ip, Str.is_empty fp with
      | true, true => None
      | true, false => fs ← digitpart fp; Some ([], fs)
      | false, true => ds ← digitpart ip; Some (ds, [])
      | false, false => ds ← digitpart ip; fs ← digitpart fp; Some (ds, fs)
      end
  end.

Definition float_exponent (o : option string) : option Z :=
  match o with
  | None => Some 0
  | Some e =>
      let '(neg, body) := split_sign e in
      ds ← digitpart body;
      Some (if neg then - digits_value ds else digits_value ds)
  end.

Definition pow10 (e : Z) : Q :=
  if 0 <=? e then inject_Z (10 ^ e) else / inject_Z (10 ^ (- e)).

(** The rational denoted by mantissa digits [ds . fs] and exponent [e]. *)
Definition decimal_value (ds fs : list Z) (e : Z) : Q :=
  Qred (inject_Z (digits_value (ds ++ fs)) * pow10 (e - Z.of_nat (length fs))).

Definition fneg (f : pyfloat) : pyfloat :=
  match f with
  | FFin q => FFin (Qred (- q))
  | FInf b => FInf (negb b)
  | FNaN => FNaN
  end.

Definition float_abs_value (s : string) : option pyfloat :=
  let l := Str.lower s in
  if String.eqb l "inf" || String.eqb l "infinity" then Some (FInf false)
  else if String.eqb l "nan" then Some FNaN
  else
    let '(m, e) := cut_at is_exp_mark s in
    '(ds, fs) ← float_mantissa m;
    ex ← float_exponent e;
    Some (FFin (decimal_value ds fs ex)).

(** [float(s)] for a string [s]. *)
Definition py_float (s : string) : res pyfloat :=
  let '(neg, body) := split_sign (Str.strip s) in
  match float_abs_value body with
  | Some f => Ok (if neg then fneg f else f)
  | None => Raise (value_error "could not convert string to float")
  end.

(** [int] and [float] values together, as the operands of arithmetic. *)
Inductive number :=
  | NInt (z : Z)
  | NFloat (f : pyfloat).

Definition to_float (n : number) : pyfloat :=
  match n with
  | NInt z => FFin (inject_Z z)
  | NFloat f => f
  end.

Definition fadd (a b : pyfloat) : pyfloat :=
  match a, b with
  | FNaN, _ | _, FNaN => FNaN
  | FFin x, FFin y => FFin (Qred (x + y))
  | FInf s, FFin _ | FFin _, FInf s => FInf s
  | FInf s, FInf t => if Bool.eqb s t then FInf s else FNaN
  end.

Definition fsub (a b : pyfloat) : pyfloat := fadd a (fneg b).

Definition q_is_zero (q : Q) : bool := Qnum q =? 0.
Definition q_is_neg (q : Q) : bool := Qnum q <? 0.

Definition fmul (a b : pyfloat) : pyfloat :=
  match a, b with
  | FNaN, _ | _, FNaN => FNaN
  | FFin x, FFin y => FFin (Qred (x * y))
  | FInf s, FFin y | FFin y, FInf s =>
      if q_is_zero y then FNaN else FInf (xorb s (q_is_neg y))
  | FInf s, FInf t => FInf (xorb s t)
  end.

Definition qlt (x y : Q) : bool := negb (Qle_bool y x).

(** [a < b] on floats: false as soon as one side is NaN. *)
Definition flt (a b : pyfloat) : bool :=
  match a, b with
  | FNaN, _ | _, FNaN => false
  | FFin x, FFin y => qlt x y
  | FFin _, FInf s => negb s
  | FInf s, FFin _ => s
  | FInf s, FInf t => s && negb t
  end.

Definition num_add (a b : number) : number :=
  match a, b with
  | NInt x, NInt y => NInt (x + y)
  | _, _ => NFloat (fadd (to_float a) (to_float b))
  end.

Definition num_sub (a b : number) : number :=
  match a, b with
  | NInt x, NInt y => NInt (x - y)
  | _, _ => NFloat (fsub (to_float a) (to_float b))
  end.

Definition num_mul (a b : number) : number :=
  match a, b with
  | NInt x, NInt y => NInt (x * y)
  | _, _ => NFloat (fmul (to_float a) (to_float b))
  end.

Definition num_lt (a b : number) : bool := flt (to_float a) (to_float b).
Definition num_gt (a b : number) : bool := num_lt b a.

Definition num_is_zero (n : number) : bool :=
  match n with
  | NInt z => z =? 0
  | NFloat (FFin q) => q_is_zero q
  | NFloat _ => false
  end.

Definition fdiv (a b : pyfloat) : pyfloat :=
  match a, b with
  | FNaN, _ | _, FNaN => FNaN
  | FFin x, FFin y => FFin (Qred (x / y))
  | FFin _, FInf _ => FFin 0
  | FInf s, FFin y => FInf (xorb s (q_is_neg y))
  | FInf _, FInf _ => FNaN
  end.

(** [a / b]: true division, always a float. *)
Definition num_truediv (a b : number) : res number :=
  if num_is_zero b then Raise (Exn CZeroDivisionError "division by zero")
  else Ok (NFloat (fdiv (to_float a) (to_float b))).

(** Round half to even, to an integer. *)
Definition round_half_even (q : Q) : Z :=
  let fl := Qfloor q in
  match (q - inject_Z fl ?= 1 # 2)%Q with
  | Lt => fl
  | Gt => fl + 1
  | Eq => if Z.even fl then fl else fl + 1
  end.

(** [round(x, 1)] for a float [x]. *)
Definition round1 (f : pyfloat) : pyfloat :=
  match f with
  | FFin q => FFin (Qred (inject_Z (round_half_even (q * 10)) / 10))
  | _ => f
  end.

(** ** Python values *)

#[warnings="-register-all"]
Inductive pyval :=
  | PNone
  | PBool (b : bool)
  | PInt (z : Z)
  | PFloat (f : pyfloat)
  | PStr (s : string)
  | PTuple (l : list pyval)
  | PList (l : list pyval)
  | PDict (l : list (string * pyval)).

Module Py.

Definition of_number (n : number) : pyval :=
  match n with
  | NInt z => PInt z
  | NFloat f => PFloat f
  end.

(** [bool] is a subclass of [int]. *)
Definition as_number (v : pyval) : option number :=
  match v with
  | PBool b => Some (NInt (if b then 1 else 0))
  | PInt z => Some (NInt z)
  | PFloat f => Some (NFloat f)
  | _ => None
  end.

Definition type_name (v : pyval) : string :=
  match v with
  | PNone => "NoneType"
  | PBool _ => "bool"
  | PInt _ => "int"
  | PFloat _ => "float"
  | PStr _ => "str"
  | PTuple _ => "tuple"
  | PList _ => "list"
  | PDict _ => "dict"
  end.

(** Truth value testing. *)
Definition truthy (v : pyval) : bool :=
  match v with
  | PNone => false
  | PBool b => b
  | PInt z => negb (z =? 0)
  | PFloat (FFin q) => negb (q_is_zero q)
  | PFloat _ => true
  | PStr s => negb (Str.is_empty s)
  | PTuple l | PList l => match l with [] => false | _ => true end
  | PDict l => match l with [] => false | _ => true end
  end.

Definition unsupported (op : string) (a b : pyval) : exn :=
  Exn CTypeError
    ("unsupported operand type(s) for " +:+ op +:+ ": '" +:+ type_name a
       +:+ "' and '" +:+ type_name b +:+ "'").

Definition dquote : string := String "034" EmptyString.

Definition cannot_concat (a b : pyval) : exn :=
  Exn CTypeError
    ("can only concatenate " +:+ type_name a +:+ " (not " +:+ dquote
       +:+ type_name b +:+ dquote +:+ ") to " +:+ type_name a).

(** [a + b] *)
Definition add (a b : pyval) : res pyval :=
  match as_number a, as_number b with
  | Some x, Some y => Ok (of_number (num_add x y))
  | _, _ =>
      match a, b with
      | PStr s, PStr t => Ok (PStr (s +:+ t))
      | PList l, PList m => Ok (PList (l ++ m))
      | PTuple l, PTuple m => Ok (PTuple (l ++ m))
      | PStr _, _ | PList _, _ | PTuple _, _ => Raise (cannot_concat a b)
      | _, _ => Raise (unsupported "+" a b)
      end
  end.

(** [v + n], [n] a number: defined when [v] is a number too. *)
Definition add_number (v : pyval) (n : number) : res number :=
  match as_number v with
  | Some x => Ok (num_add x n)
  | None =>
      match v with
      | PStr _ | PList _ | PTuple _ => Raise (cannot_concat v (of_number n))
      | _ => Raise (unsupported "+" v (of_number n))
      end
  end.

(** [n - v], [n] a number. *)
Definition number_sub (n : number) (v : pyval) : res number :=
  match as_number v with
  | Some y => Ok (num_sub n y)
  | None => Raise (unsupported "-" (of_number n) v)
  end.

Definition not_comparable (op : string) (a b : pyval) : exn :=
  Exn CTypeError
    ("'" +:+ op +:+ "' not supported between instances of '" +:+ type_name a
       +:+ "' and '" +:+ type_name b +:+ "'").

(** [v > n], [n] a number. *)
Definition gt_number (v : pyval) (n : number) : res bool :=
  match as_number v with
  | Some x => Ok (num_gt x n)
  | None => Raise (not_comparable ">" v (of_number n))
  end.

(** [v / n], [n] a number. *)
Definition truediv_number (v : pyval) (n : number) : res number :=
  match as_number v with
  | Some x => num_truediv x n
  | None => Raise (unsupported "/" v (of_number n))
  end.

Definition not_iterable (v : pyval) : exn :=
  Exn CTypeError ("'" +:+ type_name v +:+ "' object is not iterable").

Fixpoint chars (s : string) : list pyval :=
  match s with
  | EmptyString => []
  | String c s' => PStr (String c EmptyString) :: chars s'
  end.

(** The elements [for x in v] goes through. *)
Definition iter (v : pyval) : res (list pyval) :=
  match v with
  | PList l | PTuple l => Ok l
  | PStr s => Ok (chars s)
  | PDict l => Ok (PStr <$> l.*1)
  | _ => Raise (not_iterable v)
  end.

(** [sum(v)] *)
Definition sum (v : pyval) : res pyval :=
  l ← iter v; for_each l (fun x acc => add acc x) (PInt 0).

(** [len(v)] *)
Definition len (v : pyval) : res Z :=
  match v with
  | PList l | PTuple l => Ok (Z.of_nat (length l))
  | PStr s => Ok (Z.of_nat (String.length s))
  | PDict l => Ok (Z.of_nat (length l))
  | _ => Raise (Exn CTypeError
                  ("object of type '" +:+ type_name v +:+ "' has no len()"))
  end.

(** [l[i]] on a list, [0 <= i]. *)
Definition index {A} (l : list A) (i : nat) : res A :=
  match l !! i with
  | Some x => Ok x
  | None => Raise (Exn CIndexError "list index out of range")
  end.

(** [d[k]] on a dict with string keys; [str(KeyError(k))] is [repr(k)]. *)
Definition getitem {V} (d : gmap string V) (k : string) : res V :=
  match d !! k with
  | Some v => Ok v
  | None => Raise (Exn CKeyError ("'" +:+ k +:+ "'"))
  end.

(** [d.get(k)] and [d.get(k, default)] *)
Definition get (d : gmap string pyval) (k : string) : pyval :=
  default PNone (d !! k).
Definition get_default (d : gmap string pyval) (k : string) (dflt : pyval)
    : pyval :=
  default dflt (d !! k).

End Py.

(** ** parsers.py *)

Definition newline : ascii := "010".

(** The guard shared by the GPU parsers:
    [not output or "not found" in output.lower()]. *)
Definition no_gpu_output (output : string) : bool :=
  Str.is_empty output || Str.contains "not found" (Str.lower output).

(** [xs if xs else None] *)
Definition list_or_none (l : list pyval) : pyval :=
  match l with
  | [] => PNone
  | _ => PList l
  end.

Definition parse_cpu_usage (output : string) : res pyval :=
  if Str.is_empty output then Ok PNone
  else
    try_except
      (let cpu_str := Str.rstrip_char "%" (Str.strip output) in
       PFloat <$> py_float cpu_str)
      [CValueError] (fun _ => Ok PNone).

Definition parse_memory_usage (output : string) : res pyval :=
  if Str.is_empty output then Ok PNone
  else
    try_except (PFloat <$> py_float (Str.strip output))
      [CValueError] (fun _ => Ok PNone).

Definition parse_load_average (output : string) : res pyval :=
  if Str.is_empty output then Ok PNone
  else
    try_except
      (let values := Str.re_split_commas_spaces (Str.strip output) in
       if 3 <=? Z.of_nat (length values) then
         v0 ← Py.index values 0 ≫= py_float;
         v1 ← Py.index values 1 ≫= py_float;
         v2 ← Py.index values 2 ≫= py_float;
         Ok (PTuple [PFloat v0; PFloat v1; PFloat v2])
       else Ok PNone)
      [CValueError] (fun _ => Ok PNone).

Definition gpu_usage_line (line : string) (gpu_usages : list pyval)
    : res (list pyval) :=
  try_except
    (n ← py_int (Str.strip line); Ok (gpu_usages ++ [PInt n]))
    [CValueError] (fun _ => Ok gpu_usages).

Definition parse_gpu_usage (output : string) : res pyval :=
  if no_gpu_output output then Ok PNone
  else
    gpu_usages ←
      for_each (Str.split newline (Str.strip output)) gpu_usage_line [];
    Ok (list_or_none gpu_usages).

(** [round((used / total) * 100, 1) if total > 0 else 0] *)
Definition used_percent (used total : Z) : res pyval :=
  if 0 <? total then
    ratio ← num_truediv (NInt used) (NInt total);
    Ok (PFloat (round1 (to_float (num_mul ratio (NInt 100)))))
  else Ok (PInt 0).

Definition gpu_memory_line (line : string) (gpu_memories : list pyval)
    : res (list pyval) :=
  try_except
    (let parts := Str.split "," (Str.strip line) in
     if 2 <=? Z.of_nat (length parts) then
       used ← Py.index parts 0 ≫= (fun p => py_int (Str.strip p));
       total ← Py.index parts 1 ≫= (fun p => py_int (Str.strip p));
       pct ← used_percent used total;
       Ok (gpu_memories ++
             [PDict [("used_mb", PInt used); ("total_mb", PInt total);
                     ("used_percent", pct)]])
     else Ok gpu_memories)
    [CValueError; CIndexError] (fun _ => Ok gpu_memories).

Definition parse_gpu_memory (output : string) : res pyval :=
  if no_gpu_output output then Ok PNone
  else
    gpu_memories ←
      for_each (Str.split newline (Str.strip output)) gpu_memory_line [];
    Ok (list_or_none gpu_memories).

Definition gpu_process_line (line : string) (processes : list pyval)
    : res (list pyval) :=
  if Str.is_empty (Str.strip line) then Ok processes
  else
    let parts := Str.strip <$> Str.split "," line in
    if 3 <=? Z.of_nat (length parts) then
      pid ← Py.index parts 0;
      name ← Py.index parts 1;
      mem ← Py.index parts 2;
      Ok (processes ++
            [PDict [("pid", PStr pid); ("name", PStr name);
                    ("memory_mb", PStr mem)]])
    else Ok processes.

Definition parse_gpu_processes (output : string) : res pyval :=
  if no_gpu_output output then Ok PNone
  else
    processes ←
      for_each (Str.split newline (Str.strip output)) gpu_process_line [];
    Ok (list_or_none processes).

(** ** The state-and-exception monad

    [M S A] is a computation over a state [S] (the remote hosts and the
    clock, possibly with a dict being filled in) that returns an [A] or
    raises; the state reached is kept in both cases. *)

Definition M (S A : Type) : Type := S -> res A * S.

#[global] Instance M_ret {S} : MRet (M S) := fun _ a s => (Ok a, s).
#[global] Instance M_bind {S} : MBind (M S) := fun _ _ k m s =>
  match m s with
  | (Ok a, s') => k a s'
  | (Raise e, s') => (Raise e, s')
  end.

Definition raise {S A} (e : exn) : M S A := fun s => (Raise e, s).

(** A pure call that may raise. *)
Definition lift {S A} (r : res A) : M S A := fun s => (r, s).

(** [try: body / except c1: h1 / except c2: h2 ...]: the first clause whose
    class matches handles the exception; an exception raised by a handler
    is not handled by its sibling clauses. *)
Definition try_catch {S A} (body : M S A)
    (clauses : list (exc_class * (exn -> M S A))) : M S A :=
  fun s =>
    match body s with
    | (Ok a, s') => (Ok a, s')
    | (Raise e, s') =>
        match find (fun cl => isinstance e cl.1) clauses with
        | Some cl => cl.2 e s'
        | None => (Raise e, s')
        end
    end.

(** [try: body / except Exception as e: handler(e) / else: orelse]. *)
Definition try_except_else {S A} (body : M S unit)
    (handler : exn -> M S A) (orelse : M S A) : M S A :=
  fun s =>
    match body s with
    | (Ok _, s') => orelse s'
    | (Raise e, s') => handler e s'
    end.

(** ** config.py: what the checker reads from the configuration *)

Record ServerConfig := {
  name : string;
  host : string;
  has_gpu : bool;
}.

(** The loaded configuration: [ssh_*] are the entries of [Config.ssh], which
    [_parse_ssh] always fills in; [cache_ttl] is [Config.cache['ttl']]. *)
Record Config := {
  servers : list ServerConfig;
  ssh_options : list string;
  ssh_timeout : Z;
  ssh_username : string;
  commands : gmap string string;
  cache_ttl : number;
}.

Definition get_gpu_servers (config : Config) : list ServerConfig :=
  filter (fun s => has_gpu s = true) (servers config).

Definition get_ssh_command (config : Config) (host command : string)
    : list string :=
  let ssh_cmd := ["ssh"] in
  let ssh_cmd := ssh_cmd ++ ssh_options config in
  let ssh_cmd :=
    ssh_cmd ++ ["-o"; "ConnectTimeout=" +:+ pretty (ssh_timeout config)] in
  let ssh_cmd :=
    if negb (Str.is_empty (ssh_username config))
    then ssh_cmd ++ [ssh_username config +:+ "@" +:+ host]
    else ssh_cmd ++ [host] in
  ssh_cmd ++ [command].

(** ** server_checker.py *)

(** The result of [subprocess.run(..., capture_output=True, text=True)]. *)
Record CompletedProcess := {
  returncode : Z;
  stdout : string;
  stderr : string;
}.

Abbreviation snapshot := (gmap string pyval).

(** *** The filter-and-rank stage of [find_best_server] ([selectBest]) *)

(** The body of the filter loop: does [server] reach [filtered.append]? *)
Definition passes_filters (need_gpu : bool) (max_cpu : option number)
    (min_memory_gb : option Z) (server : snapshot) : res bool :=
  cpu_ok ←
    match max_cpu with
    | Some bound =>
        match Py.get server "cpu_usage" with
        | PNone => Ok false
        | cpu => negb <$> Py.gt_number cpu bound
        end
    | None => Ok true
    end;
  if negb cpu_ok then Ok false
  else
    mem_ok ←
      match min_memory_gb with
      | Some _ =>
          match Py.get server "memory_usage" with
          | PNone => Ok false
          | mem_usage => negb <$> Py.gt_number mem_usage (NInt 80)
          end
      | None => Ok true
      end;
    if negb mem_ok then Ok false
    else if need_gpu then Ok (Py.truthy (Py.get server "gpu_usage"))
    else Ok true.

Definition filter_servers (need_gpu : bool) (max_cpu : option number)
    (min_memory_gb : option Z) (results : list snapshot)
    : res (list snapshot) :=
  let online_servers :=
    filter (fun r => Py.truthy (Py.get_default r "online" (PBool false)) = true)
      results in
  for_each online_servers
    (fun server filtered =>
       keep ← passes_filters need_gpu max_cpu min_memory_gb server;
       Ok (if keep : bool then filtered ++ [server] else filtered))
    [].

Definition score_server (server : snapshot) : res number :=
  let cpu := Py.get_default server "cpu_usage" (PInt 100) in
  let mem := Py.get_default server "memory_usage" (PInt 100) in
  gpu_score ←
    (if Py.truthy (Py.get server "gpu_usage") then
       total ← Py.getitem server "gpu_usage" ≫= Py.sum;
       count ← Py.getitem server "gpu_usage" ≫= Py.len;
       Py.truediv_number total (NInt count)
     else Ok (NInt 0));
  cpu_mem ← Py.add cpu mem;
  Py.add_number cpu_mem gpu_score.

(** [l.sort(key=...)] once the keys are computed: a stable sort that only
    asks [<] of the keys.  An element moves ahead of another one only when
    its key is strictly smaller.  On keys that [<] orders, every stable
    sort returns the same list; it is computed here by insertion. *)
Fixpoint insert_by_key {A} (x : number * A) (l : list (number * A))
    : list (number * A) :=
  match l with
  | [] => [x]
  | y :: l' =>
      if num_lt y.1 x.1 then y :: insert_by_key x l' else x :: y :: l'
  end.

Definition sort_by_key {A} (l : list (number * A)) : list (number * A) :=
  foldr insert_by_key [] l.

(** The keys are computed for every element, in order, before sorting. *)
Definition list_sort {A} (key : A -> res number) (l : list A) : res (list A) :=
  keyed ← for_each l (fun x acc => k ← key x; Ok (acc ++ [(k, x)])) [];
  Ok ((sort_by_key keyed).*2).

Definition select_best (need_gpu : bool) (max_cpu : option number)
    (min_memory_gb : option Z) (results : list snapshot)
    : res (option snapshot) :=
  filtered ← filter_servers need_gpu max_cpu min_memory_gb results;
  match filtered with
  | [] => Ok None
  | _ =>
      filtered ← list_sort score_server filtered;
      Some <$> Py.index filtered 0
  end.

Section ServerChecker.

(** The outside world: the remote hosts behind [subprocess.run], which
    returns a completed process or raises ([TimeoutExpired], [OSError]),
    and the clock behind [time.time]. *)
Context {World : Type}.
Variable subprocess_run : list string -> Z -> M World CompletedProcess.
Variable time_time : World -> Q * World.

Variable config : Config.

Definition _run_ssh_command (server : ServerConfig) (command : string)
    : M World string :=
  let ssh_cmd := get_ssh_command config (host server) command in
  try_catch
    (result ← subprocess_run ssh_cmd (ssh_timeout config);
     if negb (returncode result =? 0) then
       if Str.contains "Could not resolve hostname" (stderr result) then
         raise (Exn CException ("Unknown host: " +:+ host server))
       else if Str.contains "Connection refused" (stderr result) then
         raise (Exn CException ("Connection refused to " +:+ host server))
       else if Str.contains "Permission denied" (stderr result) then
         raise (Exn CException ("Permission denied for " +:+ host server))
       else
         raise (Exn CException ("SSH error: " +:+ Str.strip (stderr result)))
     else mret (Str.strip (stdout result)))
    [(CTimeoutExpired, fun _ =>
        raise (Exn CException ("Connection timeout to " +:+ host server)));
     (CException, fun e =>
        raise (Exn CException ("SSH failed: " +:+ exn_str e)))].

(** Next to the world, the state may hold a dict that is being filled:
    [data] inside [_check_server_sync], [self._cache] in [check_server]. *)
Definition setitem {V} (k : string) (v : V) : M (gmap string V * World) unit :=
  fun '(d, w) => (Ok tt, (<[k := v]> d, w)).

Definition the_dict {V} : M (gmap string V * World) (gmap string V) :=
  fun '(d, w) => (Ok d, (d, w)).

Definition in_world {D A} (m : M World A) : M (D * World) A :=
  fun '(d, w) => let '(r, w') := m w in (r, (d, w')).

(** Run [m] with the local dict [d]; the dict is dropped at the end. *)
Definition with_dict {V A} (d : gmap string V)
    (m : M (gmap string V * World) A) : M World A :=
  fun w => let '(r, (_, w')) := m (d, w) in (r, w').

(** [self._run_ssh_command(server, self.config.commands[cmd])] *)
Definition fetch (server : ServerConfig) (cmd : string) : M World string :=
  command ← lift (Py.getitem (commands config) cmd);
  _run_ssh_command server command.

(** [output = <fetch cmd>; data[key] = parse(output)] *)
Definition run_and_store (server : ServerConfig) (cmd key : string)
    (parse : string -> res pyval) : M (snapshot * World) unit :=
  output ← in_world (fetch server cmd);
  v ← lift (parse output);
  setitem key v.

Definition mandatory_stage (server : ServerConfig)
    : M (snapshot * World) unit :=
  run_and_store server "cpu_usage" "cpu_usage" parse_cpu_usage;;
  run_and_store server "memory_usage" "memory_usage" parse_memory_usage;;
  run_and_store server "load_average" "load_average" parse_load_average.

Definition gpu_stage (server : ServerConfig) : M (snapshot * World) unit :=
  run_and_store server "gpu_usage" "gpu_usage" parse_gpu_usage;;
  run_and_store server "gpu_memory" "gpu_memory" parse_gpu_memory;;
  if bool_decide (is_Some (commands config !! "gpu_processes")) then
    run_and_store server "gpu_processes" "gpu_processes" parse_gpu_processes
  else mret tt.

Definition check_body (server : ServerConfig) : M (snapshot * World) unit :=
  mandatory_stage server;;
  if has_gpu server then
    try_catch (gpu_stage server)
      [(CException, fun e => setitem "gpu_error" (PStr (exn_str e)))]
  else mret tt.

Definition _check_server_sync (server : ServerConfig) : M World snapshot :=
  fun w =>
    let '(now, w) := time_time w in
    let data : snapshot :=
      <["checked_at" := PFloat (FFin now)]>
        (<["has_gpu" := PBool (has_gpu server)]>
           (<["host" := PStr (host server)]>
              (<["name" := PStr (name server)]> ∅))) in
    with_dict data
      (try_except_else (check_body server)
         (fun e =>
            setitem "error" (PStr (exn_str e));;
            setitem "online" (PBool false))
         (setitem "online" (PBool true));;
       the_dict)
      w.

(** [check_server] up to its suspension point, the test of the cache:
    [Some cached] is returned at once, [None] hands [_check_server_sync]
    to the executor. *)
Definition cache_lookup (cache : gmap string snapshot)
    (server : ServerConfig) (use_cache : bool) : M World (option snapshot) :=
  if use_cache && bool_decide (is_Some (cache !! name server)) then
    cached ← lift (Py.getitem cache (name server));
    now ← (fun w => let '(t, w') := time_time w in (Ok t, w'));
    checked_at ← lift (Py.getitem cached "checked_at");
    age ← lift (Py.number_sub (NFloat (FFin now)) checked_at);
    if num_lt age (cache_ttl config) then mret (Some cached) else mret None
  else mret None.

(** [check_server], run on its own: nothing else touches the cache between
    the test of the cache and the update. *)
Definition check_server (server : ServerConfig) (use_cache : bool)
    : M (gmap string snapshot * World) snapshot :=
  hit ← (cache ← the_dict; in_world (cache_lookup cache server use_cache));
  match hit with
  | Some cached => mret cached
  | None =>
      data ← in_world (_check_server_sync server);
      setitem (name server) data;;
      mret data
  end.

(** *** [check_servers]: [asyncio.gather] over the [check_server] tasks

    The event loop first runs every task, in the order of the arguments,
    up to its suspension point ([start_tasks]).  The submitted jobs then
    run on the executor's threads: job [i] sees the hosts and the clock as
    [jobs i], and the jobs complete in the order [sched].  A completion
    resumes its task, which updates the cache and returns. *)

Inductive task :=
  | Returned (r : res snapshot)
  | Running (server : ServerConfig).

Fixpoint start_tasks (cache : gmap string snapshot)
    (servers : list ServerConfig) (use_cache : bool) (w : World)
    : list task * World :=
  match servers with
  | [] => ([], w)
  | server :: rest =>
      let '(r, w) := cache_lookup cache server use_cache w in
      let t :=
        match r with
        | Ok (Some cached) => Returned (Ok cached)
        | Ok None => Running server
        | Raise e => Returned (Raise e)
        end in
      let '(ts, w) := start_tasks cache rest use_cache w in
      (t :: ts, w)
  end.

Definition complete (jobs : nat -> World) (i : nat)
    (st : list task * gmap string snapshot)
    : list task * gmap string snapshot :=
  match st.1 !! i with
  | Some (Running server) =>
      match (_check_server_sync server (jobs i)).1 with
      | Ok data =>
          (<[i := Returned (Ok data)]> st.1, <[name server := data]> st.2)
      | Raise e => (<[i := Returned (Raise e)]> st.1, st.2)
      end
  | _ => st
  end.

(** What the awaited [gather] gives: the exception of a task that raised,
    else the results in the order of the arguments once every task has
    returned; [None] while a task is still running. *)
Fixpoint gather (tasks : list task) : option (res (list snapshot)) :=
  match tasks with
  | [] => Some (Ok [])
  | Returned (Raise e) :: _ => Some (Raise e)
  | Returned (Ok d) :: rest =>
      match gather rest with
      | Some (Ok ds) => Some (Ok (d :: ds))
      | other => other
      end
  | Running _ :: rest =>
      match gather rest with
      | Some (Raise e) => Some (Raise e)
      | _ => None
      end
  end.

Definition check_servers (servers : list ServerConfig) (use_cache : bool)
    (jobs : nat -> World) (sched : list nat)
    (st : gmap string snapshot * World)
    : option (res (list snapshot)) * (gmap string snapshot * World) :=
  let '(tasks, w) := start_tasks st.1 servers use_cache st.2 in
  let '(tasks, cache) :=
    fold_left (fun st i => complete jobs i st) sched (tasks, st.1) in
  (gather tasks, (cache, w)).

Definition check_all := check_servers (servers config).
Definition check_gpu_servers := check_servers (get_gpu_servers config).

Definition find_best_server (need_gpu : bool) (max_cpu : option number)
    (min_memory_gb : option Z) (use_cache : bool)
    (jobs : nat -> World) (sched : list nat)
    (st : gmap string snapshot * World)
    : option (res (option snapshot)) * (gmap string snapshot * World) :=
  let servers :=
    if need_gpu then get_gpu_servers config else servers config in
  let '(results, st) := check_servers servers use_cache jobs sched st in
  ((fun r => r ≫= select_best need_gpu max_cpu min_memory_gb) <$> results,
   st).

Definition clear_cache (st : gmap string snapshot * World)
    : gmap string snapshot * World :=
  (∅, st.2).

End ServerChecker.

(** * Specification-level definitions

    The notions with which the properties of the engine are stated: what
    the specification says a parser or the selection computes, the outcomes
    of the commands of a check, the invariant of the cache, and a scripted
    world in which the examples run. *)

(** ** Parsers *)

(** The usage parsers as the specification words them: strip whitespace and
    a trailing [%], read the rest as a float, absence when it is not one. *)
Definition usage_as_specified (output : string) : pyval :=
  match py_float (Str.rstrip_char "%" (Str.strip output)) with
  | Ok f => PFloat f
  | Raise _ => PNone
  end.

(** [x] rounded to one decimal. *)
Definition round_1dp (x : Q) : Q := inject_Z (round_half_even (x * 10)) / 10.

(** The entry of one line of GPU memory text as the specification words it:
    comma-separated [used,total] in megabytes, with
    [usedPercent = used/total*100] rounded to one decimal, or 0 when there
    is no positive total; no entry for a malformed line. *)
Definition percent_as_specified (used total : Z) : pyval :=
  if 0 <? total
  then PFloat (FFin (Qred (round_1dp (inject_Z used / inject_Z total * 100))))
  else PInt 0.

Definition gpu_memory_entry (line : string) : option pyval :=
  match Str.split "," (Str.strip line) with
  | u :: t :: _ =>
      match py_int u, py_int t with
      | Ok used, Ok total =>
          Some (PDict [("used_mb", PInt used); ("total_mb", PInt total);
                       ("used_percent", percent_as_specified used total)])
      | _, _ => None
      end
  | _ => None
  end.

Definition gpu_memory_as_specified (output : string) : pyval :=
  list_or_none
    (omap gpu_memory_entry (Str.split newline (Str.strip output))).

(** The entry of one line of GPU utilization text: an integer, or nothing. *)
Definition gpu_usage_entry (line : string) : option pyval :=
  match py_int line with
  | Ok n => Some (PInt n)
  | Raise _ => None
  end.

(** ** Selection *)

(** The numbers that order: integers and finite floats. *)
Definition finite (n : number) : bool :=
  match n with
  | NInt _ | NFloat (FFin _) => true
  | NFloat _ => false
  end.

Definition qval (n : number) : Q :=
  match n with
  | NInt z => inject_Z z
  | NFloat (FFin q) => q
  | NFloat _ => 0
  end.

(** The order of the keys of a sorted list. *)
Definition key_le {A} (a b : number * A) : Prop := (qval a.1 <= qval b.1)%Q.

#[local] Instance Qeq_decision (x y : Q) : Decision (x == y)%Q := Qeq_dec x y.







(** ** The remote command executor *)

(** The error kinds of the specification. *)
Inductive ErrorKind :=
  | UnknownHost
  | ConnectionRefused
  | PermissionDenied
  | Timeout
  | RemoteCommandError (text : string).

(** The kind read off the standard error of a command that exited with a
    non-zero status. *)
Definition classify (stderr : string) : ErrorKind :=
  if Str.contains "Could not resolve hostname" stderr then UnknownHost
  else if Str.contains "Connection refused" stderr then ConnectionRefused
  else if Str.contains "Permission denied" stderr then PermissionDenied
  else RemoteCommandError (Str.strip stderr).

(** How [_run_ssh_command] reports each kind: the exception it raises. *)
Definition reported (kind : ErrorKind) (server : ServerConfig) : exn :=
  match kind with
  | UnknownHost => Exn CException ("SSH failed: Unknown host: " +:+ host server)
  | ConnectionRefused =>
      Exn CException ("SSH failed: Connection refused to " +:+ host server)
  | PermissionDenied =>
      Exn CException ("SSH failed: Permission denied for " +:+ host server)
  | Timeout => Exn CException ("Connection timeout to " +:+ host server)
  | RemoteCommandError text =>
      Exn CException ("SSH failed: SSH error: " +:+ text)
  end.

(** ** Checks *)

(** The dict with which [_check_server_sync] starts. *)
Definition initial_data (server : ServerConfig) (now : Q) : snapshot :=
  <["checked_at" := PFloat (FFin now)]>
    (<["has_gpu" := PBool (has_gpu server)]>
       (<["host" := PStr (host server)]>
          (<["name" := PStr (name server)]> ∅))).

(** The entries that [check_server] writes into the cache: under the name
    of a host, a snapshot of that host with its capture time. *)
Definition snapshot_ok (k : string) (d : snapshot) : Prop :=
  d !! "name" = Some (PStr k)
  /\ exists t, d !! "checked_at" = Some (PFloat (FFin t)).

Definition cache_ok (cache : gmap string snapshot) : Prop :=
  map_Forall snapshot_ok cache.

(** The cache of a new checker, and of a checker after [clear_cache], is
    empty; [check_server] and [check_servers] keep the cache well formed
    (see the properties). *)

(** The age test of [check_server]:
    [time.time() - cached['checked_at'] < ttl]. *)
Definition within_ttl (config : Config) (now : Q) (cached : snapshot) : bool :=
  match cached !! "checked_at" ≫= Py.as_number with
  | Some t => num_lt (num_sub (NFloat (FFin now)) t) (cache_ttl config)
  | None => false
  end.

Section Outcomes.

Context {World : Type}.
Variable subprocess_run : list string -> Z -> M World CompletedProcess.
Variable time_time : World -> Q * World.
Variable config : Config.

Local Abbreviation fetch := (fetch subprocess_run config).

(** A mandatory command fails, the ones before it having succeeded: [e]
    is the first failure of the stage and [w'] the world it leaves. *)
Inductive mandatory_failure (server : ServerConfig) (w : World) (e : exn)
    (w' : World) : Prop :=
  | cpu_failed :
      fetch server "cpu_usage" w = (Raise e, w') ->
      mandatory_failure server w e w'
  | memory_failed o1 w1 :
      fetch server "cpu_usage" w = (Ok o1, w1) ->
      fetch server "memory_usage" w1 = (Raise e, w') ->
      mandatory_failure server w e w'
  | load_failed o1 w1 o2 w2 :
      fetch server "cpu_usage" w = (Ok o1, w1) ->
      fetch server "memory_usage" w1 = (Ok o2, w2) ->
      fetch server "load_average" w2 = (Raise e, w') ->
      mandatory_failure server w e w'.

(** The three mandatory commands succeed, leaving the world [w']. *)
Inductive mandatory_success (server : ServerConfig) (w w' : World)
    : Prop :=
  | mandatory_ok o1 w1 o2 w2 o3 :
      fetch server "cpu_usage" w = (Ok o1, w1) ->
      fetch server "memory_usage" w1 = (Ok o2, w2) ->
      fetch server "load_average" w2 = (Ok o3, w') ->
      mandatory_success server w w'.

(** The CPU command succeeds; the CPU and the memory commands succeed. *)
Definition cpu_succeeds (server : ServerConfig) (w : World) : Prop :=
  exists o1 w1, fetch server "cpu_usage" w = (Ok o1, w1).

Definition memory_succeeds (server : ServerConfig) (w : World) : Prop :=
  exists o1 w1 o2 w2,
    fetch server "cpu_usage" w = (Ok o1, w1)
    /\ fetch server "memory_usage" w1 = (Ok o2, w2).

(** A command of the GPU stage fails, the ones before it having
    succeeded; the process list is only asked when it is configured.  [e]
    is the first failure of the stage and [w'] the world it leaves. *)
Inductive gpu_failure (server : ServerConfig) (w : World) (e : exn)
    (w' : World) : Prop :=
  | gpu_usage_failed :
      fetch server "gpu_usage" w = (Raise e, w') ->
      gpu_failure server w e w'
  | gpu_memory_failed o1 w1 :
      fetch server "gpu_usage" w = (Ok o1, w1) ->
      fetch server "gpu_memory" w1 = (Raise e, w') ->
      gpu_failure server w e w'
  | gpu_processes_failed o1 w1 o2 w2 :
      fetch server "gpu_usage" w = (Ok o1, w1) ->
      fetch server "gpu_memory" w1 = (Ok o2, w2) ->
      is_Some (commands config !! "gpu_processes") ->
      fetch server "gpu_processes" w2 = (Raise e, w') ->
      gpu_failure server w e w'.

(** What task [i] of a batch returns, whenever it completes. *)
Definition task_result (jobs : nat -> World) (i : nat) (t : task)
    : res snapshot :=
  match t with
  | Returned r => r
  | Running server =>
      (_check_server_sync subprocess_run time_time config server (jobs i)).1
  end.

End Outcomes.

(** ** A scripted world

    The replies of the successive [subprocess.run] calls are fixed in
    advance, and the clock advances by one second at each reading. *)

Module Script.

Record world := World { clock : Q; replies : list (res CompletedProcess) }.

Definition subprocess_run (argv : list string) (timeout : Z)
    : M world CompletedProcess :=
  fun w =>
    match replies w with
    | r :: rest => (r, World (clock w) rest)
    | [] => (Raise (Exn COSError "Network is unreachable"), w)
    end.

Definition time_time (w : world) : Q * world :=
  (clock w, World (Qred (clock w + 1)) (replies w)).

Definition exit0 (output : string) : res CompletedProcess :=
  Ok {| returncode := 0; stdout := output; stderr := "" |}.

Definition failed (status : Z) (err : string) : res CompletedProcess :=
  Ok {| returncode := status; stdout := ""; stderr := err |}.

Definition timed_out : res CompletedProcess :=
  Raise (Exn CTimeoutExpired "Command timed out after 10 seconds").

End Script.

Definition orca01 : ServerConfig :=
  {| name := "orca01"; host := "orca01.example.org"; has_gpu := true |}.

Definition ermine : ServerConfig :=
  {| name := "ermine"; host := "ermine.example.org"; has_gpu := false |}.

Definition example_config : Config :=
  {| servers := [orca01; ermine];
     ssh_options := ["-o"; "BatchMode=yes"];
     ssh_timeout := 10;
     ssh_username := "scout";
     commands :=
       list_to_map
         [("cpu_usage", "cpu"); ("memory_usage", "mem");
          ("load_average", "load"); ("gpu_usage", "gpu");
          ("gpu_memory", "gpumem")];
     cache_ttl := NInt 30 |}.

(** A snapshot given by its items. *)
Definition snapshot_of (items : list (string * pyval)) : snapshot :=
  list_to_map items.

Definition online_snapshot (host : string) (cpu mem : pyval) : snapshot :=
  snapshot_of
    [("name", PStr host); ("host", PStr host); ("has_gpu", PBool false);
     ("checked_at", PFloat (FFin 1000)); ("cpu_usage", cpu);
     ("memory_usage", mem); ("load_average", PNone); ("online", PBool true)].

(** The snapshot that the check of [server] produces in the world [w]. *)
Definition checked (server : ServerConfig) (w : Script.world) : snapshot :=
  match (_check_server_sync Script.subprocess_run Script.time_time
           example_config server w).1 with
  | Ok data => data
  | Raise _ => ∅
  end.

(** The batch of the examples: scores 20, 10 and 10. *)
Definition example_batch : list snapshot :=
  [online_snapshot "a" (PFloat (FFin 10)) (PFloat (FFin 10));
   online_snapshot "b" (PFloat (FFin 5)) (PFloat (FFin 5));
   online_snapshot "c" (PFloat (FFin 4)) (PFloat (FFin 6))].

(** A cache that holds a snapshot of [ermine] taken at time 1000. *)
Definition example_cache : gmap string snapshot :=
  {[ "ermine" :=
       snapshot_of
         [("name", PStr "ermine"); ("host", PStr "ermine.example.org");
          ("has_gpu", PBool false); ("checked_at", PFloat (FFin 1000));
          ("error", PStr "Connection timeout to ermine.example.org");
          ("online", PBool false)] ]}.

(** The worlds of the jobs of the examples: every command times out. *)
Definition unreachable (i : nat) : Script.world :=
  Script.World (inject_Z (2000 + Z.of_nat i)) [Script.timed_out].

(** * Properties *)

(** ** Strings and literals *)

Module StrFacts.

Lemma rstrip_by_idemp p s :
  Str.rstrip_by p (Str.rstrip_by p s) = Str.rstrip_by p s.
Proof.
  induction s as [|c s IH]; simpl; [done|].
  destruct (Str.rstrip_by p s) as [|d r] eqn:Hr; simpl.
  - destruct (p c) eqn:Hc; simpl; [done|]. by rewrite Hc.
  - simpl in IH. rewrite IH. done.
Qed.

(** Stripping on the right keeps a first character that is kept on the
    left. *)
Lemma lstrip_rstrip_head p s :
  Str.lstrip_by p (Str.rstrip_by p (Str.lstrip_by p s))
  = Str.rstrip_by p (Str.lstrip_by p s).
Proof.
  induction s as [|c s IH]; simpl; [done|].
  destruct (p c) eqn:Hc; [done|].
  simpl. rewrite Hc, andb_false_r. simpl. by rewrite Hc.
Qed.

Lemma strip_idemp s : Str.strip (Str.strip s) = Str.strip s.
Proof.
  unfold Str.strip. rewrite lstrip_rstrip_head. apply rstrip_by_idemp.
Qed.

End StrFacts.

(** [float] does its own stripping: it cannot tell [s] from [s.strip()]. *)
Lemma py_float_strip s : py_float (Str.strip s) = py_float s.
Proof. unfold py_float. by rewrite StrFacts.strip_idemp. Qed.

Lemma py_int_strip s : py_int (Str.strip s) = py_int s.
Proof. unfold py_int. by rewrite StrFacts.strip_idemp. Qed.

(** [float] and [int] raise nothing but [ValueError]. *)
Lemma py_float_raises s e : py_float s = Raise e -> exn_class e = CValueError.
Proof.
  unfold py_float. destruct (split_sign _) as [neg body].
  destruct (float_abs_value body); [done|]. by intros [= <-].
Qed.

Lemma py_int_raises s e : py_int s = Raise e -> exn_class e = CValueError.
Proof.
  unfold py_int. destruct (split_sign _) as [neg body].
  destruct (digitpart body); [done|]. by intros [= <-].
Qed.

(** ** The usage parsers *)

(** [try: return float(x) / except ValueError: return None] *)
Lemma float_or_none s :
  try_except (PFloat <$> py_float s) [CValueError] (fun _ => Ok PNone)
  = match py_float s with
    | Ok f => Ok (PFloat f)
    | Raise _ => Ok PNone
    end.
Proof.
  destruct (py_float s) as [f|e] eqn:E; simpl; [done|].
  apply py_float_raises in E. unfold isinstance. by rewrite E.
Qed.

Lemma parse_cpu_usage_eq output :
  parse_cpu_usage output
  = match py_float (Str.rstrip_char "%" (Str.strip output)) with
    | Ok f => Ok (PFloat f)
    | Raise _ => Ok PNone
    end.
Proof.
  unfold parse_cpu_usage. destruct output as [|c s]; [done|].
  simpl Str.is_empty. cbv iota. apply float_or_none.
Qed.

Lemma parse_memory_usage_eq output :
  parse_memory_usage output
  = match py_float output with
    | Ok f => Ok (PFloat f)
    | Raise _ => Ok PNone
    end.
Proof.
  unfold parse_memory_usage. destruct output as [|c s]; [done|].
  simpl Str.is_empty. cbv iota. rewrite float_or_none.
  by rewrite py_float_strip.
Qed.

(** ** The GPU memory parser *)

Lemma round_half_even_proper q1 q2 :
  (q1 == q2)%Q -> round_half_even q1 = round_half_even q2.
Proof.
  intros E. unfold round_half_even.
  rewrite (Qfloor_comp _ _ E).
  assert (E' : (q1 - inject_Z (Qfloor q2) == q2 - inject_Z (Qfloor q2))%Q)
    by (by rewrite E).
  by rewrite (Qcompare_comp _ _ E' _ _ (Qeq_refl _)).
Qed.



Lemma used_percent_eq used total :
  used_percent used total = Ok (percent_as_specified used total).
Proof.
  unfold used_percent, percent_as_specified.
  destruct (0 <? total) eqn:Hpos; [|done].
  apply Z.ltb_lt in Hpos.
  unfold num_truediv. simpl num_is_zero.
  destruct (total =? 0) eqn:Hz; [apply Z.eqb_eq in Hz; lia|].
  simpl. do 3 f_equal. apply Qred_complete. unfold round_1dp.
  rewrite (round_half_even_proper
             (Qred (Qred (inject_Z used / inject_Z total) * inject_Z 100) * 10)
             (inject_Z used / inject_Z total * 100 * 10)); [done|].
  by rewrite !Qred_correct.
Qed.

(** Unfold the binds of [res] and the list indexing of a known list. *)
Ltac res_unfold :=
  unfold Py.index; simpl lookup;
  cbv beta iota delta [mbind res_bind mret res_ret].

(** An exception of a class that the [except] clause lists is handled. *)
Ltac caught H :=
  simpl try_except; unfold isinstance; rewrite H; simpl.

(** The loop, one iteration at a time. *)
Lemma for_each_raise {A S} (l : list A) (body : A -> S -> res S) e :
  fold_left (fun acc x => s ← acc; body x s) l (Raise e) = Raise e.
Proof. induction l as [|x l IH]; simpl; [done|apply IH]. Qed.

Lemma for_each_nil {A S} (body : A -> S -> res S) init :
  for_each [] body init = Ok init.
Proof. done. Qed.

Lemma for_each_cons {A S} x (l : list A) (body : A -> S -> res S) init :
  for_each (x :: l) body init
  = match body x init with
    | Ok s => for_each l body s
    | Raise e => Raise e
    end.
Proof.
  unfold for_each. simpl. destruct (body x init); [done|].
  apply for_each_raise.
Qed.

(** A loop whose body appends at most one entry per element and never
    lets an exception out is a filter-map. *)
Lemma for_each_omap {A B} (f : A -> option B)
    (body : A -> list B -> res (list B)) :
  (forall x acc, body x acc = Ok (acc ++ option_list (f x))) ->
  forall l acc, for_each l body acc = Ok (acc ++ omap f l).
Proof.
  intros Hbody l.
  induction l as [|x l IH]; intros acc.
  - rewrite for_each_nil. simpl. by rewrite app_nil_r.
  - rewrite for_each_cons, Hbody, IH. simpl.
    destruct (f x); simpl; [by rewrite <- app_assoc|by rewrite app_nil_r].
Qed.

Lemma gpu_memory_line_eq line acc :
  gpu_memory_line line acc = Ok (acc ++ option_list (gpu_memory_entry line)).
Proof.
  unfold gpu_memory_line, gpu_memory_entry.
  destruct (Str.split "," (Str.strip line)) as [|u [|t rest]] eqn:Hparts.
  - simpl. by rewrite app_nil_r.
  - simpl. by rewrite app_nil_r.
  - replace (2 <=? Z.of_nat (length (u :: t :: rest))) with true
      by (symmetry; apply Z.leb_le; simpl length; lia).
    res_unfold. rewrite !py_int_strip.
    destruct (py_int u) as [used|e] eqn:Hu.
    + destruct (py_int t) as [total|e] eqn:Ht.
      * rewrite used_percent_eq. done.
      * apply py_int_raises in Ht. caught Ht. by rewrite app_nil_r.
    + apply py_int_raises in Hu. caught Hu. by rewrite app_nil_r.
Qed.

Lemma parse_gpu_memory_eq output :
  parse_gpu_memory output
  = Ok (if no_gpu_output output then PNone
        else gpu_memory_as_specified output).
Proof.
  unfold parse_gpu_memory, gpu_memory_as_specified.
  destruct (no_gpu_output output); [done|].
  by rewrite (for_each_omap gpu_memory_entry _ gpu_memory_line_eq).
Qed.

(** The other GPU parsers and the load-average parser never raise. *)

Lemma gpu_usage_line_eq line acc :
  gpu_usage_line line acc = Ok (acc ++ option_list (gpu_usage_entry line)).
Proof.
  unfold gpu_usage_line, gpu_usage_entry. rewrite py_int_strip.
  destruct (py_int line) as [n|e] eqn:Hn; [done|].
  apply py_int_raises in Hn. res_unfold. caught Hn. by rewrite app_nil_r.
Qed.

Lemma parse_gpu_usage_eq output :
  parse_gpu_usage output
  = Ok (if no_gpu_output output then PNone
        else list_or_none
               (omap gpu_usage_entry (Str.split newline (Str.strip output)))).
Proof.
  unfold parse_gpu_usage. destruct (no_gpu_output output); [done|].
  by rewrite (for_each_omap gpu_usage_entry _ gpu_usage_line_eq).
Qed.

Lemma parse_load_average_total output :
  exists v, parse_load_average output = Ok v.
Proof.
  unfold parse_load_average. destruct (Str.is_empty output); [by eexists|].
  destruct (Str.re_split_commas_spaces (Str.strip output))
    as [|a [|b [|c rest]]] eqn:Hv; try (by eexists).
  replace (3 <=? Z.of_nat (length (a :: b :: c :: rest))) with true
    by (symmetry; apply Z.leb_le; simpl length; lia).
  res_unfold.
  destruct (py_float a) as [x|e] eqn:Ha;
    [|apply py_float_raises in Ha; caught Ha; by eexists].
  destruct (py_float b) as [y|e] eqn:Hb;
    [|apply py_float_raises in Hb; caught Hb; by eexists].
  destruct (py_float c) as [z|e] eqn:Hc;
    [|apply py_float_raises in Hc; caught Hc; by eexists].
  by eexists.
Qed.

(** Commas and runs of whitespace both separate the load averages. *)
Example parse_load_average_separators :
  parse_load_average "0.10, 0.20, 0.30"
  = Ok (PTuple [PFloat (FFin (1 # 10)); PFloat (FFin (1 # 5));
                PFloat (FFin (3 # 10))])
  /\ parse_load_average "0.10 0.20 0.30" = parse_load_average "0.10, 0.20, 0.30"
  /\ parse_load_average "0.10 0.20" = Ok PNone.
Proof. repeat split; vm_compute; reflexivity. Qed.

Lemma parse_cpu_usage_total output : exists v, parse_cpu_usage output = Ok v.
Proof. rewrite parse_cpu_usage_eq. destruct (py_float _); by eexists. Qed.

Lemma parse_memory_usage_total output :
  exists v, parse_memory_usage output = Ok v.
Proof. rewrite parse_memory_usage_eq. destruct (py_float _); by eexists. Qed.

Lemma parse_gpu_usage_total output : exists v, parse_gpu_usage output = Ok v.
Proof. rewrite parse_gpu_usage_eq. by eexists. Qed.

Lemma parse_gpu_memory_total output : exists v, parse_gpu_memory output = Ok v.
Proof. rewrite parse_gpu_memory_eq. by eexists. Qed.

(** C7, counterexample: on [45.2%] the memory parser gives absence, where
    stripping the trailing percent sign and reading the rest as a float
    gives 45.2 (which is what the CPU parser returns). *)
Lemma memory_parser_keeps_percent_sign :
  parse_memory_usage "45.2%" = Ok PNone
  /\ usage_as_specified "45.2%" = PFloat (FFin (226 # 5))
  /\ parse_cpu_usage "45.2%" = Ok (PFloat (FFin (226 # 5))).
Proof. repeat split; vm_compute; reflexivity. Qed.

(** C7, as amended: neither usage parser ever raises.  The CPU parser
    strips whitespace and the trailing percent signs and reads the rest as a
    float, with absence when it is not one; the memory parser strips
    whitespace only, so text ending in a percent sign gives absence.  Both
    read [12.5] as 12.5 and give absence on [abc] and on empty text. *)
Theorem usage_parsers_contract (output : string) :
  parse_cpu_usage output = Ok (usage_as_specified output)
  /\ parse_memory_usage output
     = Ok (match py_float (Str.strip output) with
           | Ok f => PFloat f
           | Raise _ => PNone
           end)
  /\ parse_cpu_usage "12.5" = Ok (PFloat (FFin (25 # 2)))
  /\ parse_memory_usage "12.5" = Ok (PFloat (FFin (25 # 2)))
  /\ parse_cpu_usage "abc" = Ok PNone
  /\ parse_memory_usage "abc" = Ok PNone
  /\ parse_cpu_usage "" = Ok PNone
  /\ parse_memory_usage "" = Ok PNone.
Proof.
  split.
  { rewrite parse_cpu_usage_eq. unfold usage_as_specified.
    by destruct (py_float _). }
  split.
  { rewrite py_float_strip, parse_memory_usage_eq. by destruct (py_float _). }
  repeat split; vm_compute; reflexivity.
Qed.



(** ** Selection *)

Lemma qlt_iff x y : qlt x y = true <-> (x < y)%Q.
Proof.
  unfold qlt. rewrite negb_true_iff. split.
  - intros H. apply Qnot_le_lt. intros Hle.
    apply Qle_bool_iff in Hle. congruence.
  - intros H. destruct (Qle_bool y x) eqn:E; [|done].
    apply Qle_bool_iff in E. by apply Qlt_not_le in H.
Qed.

Lemma num_lt_finite a b :
  finite a = true -> finite b = true ->
  num_lt a b = true <-> (qval a < qval b)%Q.
Proof.
  unfold num_lt.
  destruct a as [x|[x| |]], b as [y|[y| |]]; simpl; try done;
    intros _ _; apply qlt_iff.
Qed.




(** [sort_by_key] is a stable sort: it permutes the list, puts the keys in
    order, and keeps the elements of equal key in their order. *)
Lemma insert_by_key_perm {A} (x : number * A) l :
  insert_by_key x l ≡ₚ x :: l.
Proof.
  induction l as [|y l IH]; simpl; [done|].
  destruct (num_lt y.1 x.1); [|done].
  rewrite IH. apply Permutation_swap.
Qed.

Lemma sort_by_key_perm {A} (l : list (number * A)) : sort_by_key l ≡ₚ l.
Proof.
  induction l as [|x l IH]; simpl; [done|].
  by rewrite insert_by_key_perm, IH.
Qed.

Lemma insert_by_key_sorted {A} (x : number * A) l :
  finite x.1 = true -> Forall (fun y => finite y.1 = true) l ->
  StronglySorted key_le l -> StronglySorted key_le (insert_by_key x l).
Proof.
  intros Fx Fl Hs. induction Hs as [|y l Hs IH Hy]; simpl.
  - by repeat constructor.
  - apply Forall_cons in Fl as [Fy Fl].
    destruct (num_lt y.1 x.1) eqn:Hlt.
    + apply (num_lt_finite _ _ Fy Fx) in Hlt.
      constructor; [by apply IH|].
      rewrite insert_by_key_perm. constructor; [|done].
      unfold key_le. lra.
    + assert (Hge : (qval x.1 <= qval y.1)%Q).
      { apply Qnot_lt_le. intros H.
        apply (num_lt_finite _ _ Fy Fx) in H. congruence. }
      constructor; [by constructor|]. constructor; [done|].
      eapply Forall_impl; [exact Hy|]. unfold key_le. intros z Hz. lra.
Qed.

Lemma sort_by_key_sorted {A} (l : list (number * A)) :
  Forall (fun y => finite y.1 = true) l ->
  StronglySorted key_le (sort_by_key l).
Proof.
  induction l as [|x l IH]; intros Hf; simpl; [constructor|].
  apply Forall_cons in Hf as [Fx Fl].
  apply insert_by_key_sorted; [done| |by apply IH].
  by rewrite sort_by_key_perm.
Qed.

Lemma insert_by_key_stable {A} (x : number * A) l (q : Q) :
  finite x.1 = true -> Forall (fun y => finite y.1 = true) l ->
  filter (fun y => (qval y.1 == q)%Q) (insert_by_key x l)
  = filter (fun y => (qval y.1 == q)%Q) (x :: l).
Proof.
  intros Fx Fl. induction l as [|y l IH]; [done|].
  apply Forall_cons in Fl as [Fy Fl]. simpl insert_by_key.
  destruct (num_lt y.1 x.1) eqn:Hlt; [|done].
  apply (num_lt_finite _ _ Fy Fx) in Hlt.
  rewrite filter_cons, (IH Fl), !filter_cons.
  destruct (decide (qval y.1 == q)%Q) as [Hy|Hy]; [|done].
  destruct (decide (qval x.1 == q)%Q) as [Hx|Hx]; [|done].
  rewrite Hy, Hx in Hlt. by apply Qlt_irrefl in Hlt.
Qed.

Lemma sort_by_key_stable {A} (l : list (number * A)) (q : Q) :
  Forall (fun y => finite y.1 = true) l ->
  filter (fun y => (qval y.1 == q)%Q) (sort_by_key l)
  = filter (fun y => (qval y.1 == q)%Q) l.
Proof.
  induction l as [|x l IH]; intros Hf; [done|].
  apply Forall_cons in Hf as [Fx Fl]. simpl sort_by_key.
  rewrite insert_by_key_stable; [|done|by rewrite sort_by_key_perm].
  by rewrite !filter_cons, (IH Fl).
Qed.






Lemma select_best_empty need_gpu max_cpu min_memory_gb results :
  filter_servers need_gpu max_cpu min_memory_gb results = Ok [] ->
  select_best need_gpu max_cpu min_memory_gb results = Ok None.
Proof. intros Hf. unfold select_best. by rewrite Hf. Qed.


(** ** The remote command executor *)

Section ServerCheckerFacts.

Context {World : Type}.
Variable subprocess_run : list string -> Z -> M World CompletedProcess.
Variable time_time : World -> Q * World.
Variable config : Config.

Lemma _run_ssh_command_eq server command w :
  _run_ssh_command subprocess_run config server command w
  = let '(r, w') :=
      subprocess_run (get_ssh_command config (host server) command)
        (ssh_timeout config) w in
    (match r with
     | Ok result =>
         if returncode result =? 0 then Ok (Str.strip (stdout result))
         else Raise (reported (classify (stderr result)) server)
     | Raise e =>
         if isinstance e CTimeoutExpired then Raise (reported Timeout server)
         else Raise (Exn CException ("SSH failed: " +:+ exn_str e))
     end, w').
Proof.
  unfold _run_ssh_command, try_catch, mbind, M_bind.
  destruct (subprocess_run _ _ w) as [[result|e] w'].
  - destruct (returncode result =? 0); [done|]. simpl negb. cbv iota.
    unfold classify.
    destruct (Str.contains "Could not resolve hostname" (stderr result));
      [done|].
    destruct (Str.contains "Connection refused" (stderr result)); [done|].
    destruct (Str.contains "Permission denied" (stderr result)); [done|].
    reflexivity.
  - simpl find. unfold isinstance.
    destruct (exc_class_eqb (exn_class e) CTimeoutExpired); reflexivity.
Qed.

(** C8: what [_run_ssh_command] does with each outcome of the remote
    shell.  A command that exits 0 returns its trimmed standard output,
    empty or not.  A non-zero exit raises the error that [classify] reads
    off the standard error: unknown host, connection refused, permission
    denied, in that order of precedence, and otherwise a remote-command
    error with the trimmed error text.  A timeout raises the timeout
    error, and any other failure to run the command is reported with its
    message. *)
Theorem remote_executor_classifies server command w :
  _run_ssh_command subprocess_run config server command w
  = (let '(r, w') :=
       subprocess_run (get_ssh_command config (host server) command)
         (ssh_timeout config) w in
     (match r with
      | Ok result =>
          if returncode result =? 0 then Ok (Str.strip (stdout result))
          else Raise (reported (classify (stderr result)) server)
      | Raise e =>
          if isinstance e CTimeoutExpired
          then Raise (reported Timeout server)
          else Raise (Exn CException ("SSH failed: " +:+ exn_str e))
      end, w'))
  /\ classify "ssh: Could not resolve hostname orca99: Name not known"
     = UnknownHost
  /\ classify "ssh: connect to host orca01 port 22: Connection refused"
     = ConnectionRefused
  /\ classify "scout@orca01: Permission denied (publickey)."
     = PermissionDenied
  /\ classify " bash: nvidia-smi: command not found "
     = RemoteCommandError "bash: nvidia-smi: command not found".
Proof.
  split; [apply _run_ssh_command_eq|]. repeat split; vm_compute; reflexivity.
Qed.

Local Abbreviation fetch := (fetch subprocess_run config).
Local Abbreviation mandatory_failure :=
  (mandatory_failure subprocess_run config).
Local Abbreviation mandatory_success :=
  (mandatory_success subprocess_run config).
Local Abbreviation gpu_failure := (gpu_failure subprocess_run config).
Local Abbreviation cpu_succeeds := (cpu_succeeds subprocess_run config).
Local Abbreviation memory_succeeds :=
  (memory_succeeds subprocess_run config).
Local Abbreviation task_result :=
  (task_result subprocess_run time_time config).
Local Abbreviation within_ttl := (within_ttl config).
Local Abbreviation run_and_store := (run_and_store subprocess_run config).
Local Abbreviation mandatory_stage := (mandatory_stage subprocess_run config).
Local Abbreviation gpu_stage := (gpu_stage subprocess_run config).
Local Abbreviation check_body := (check_body subprocess_run config).
Local Abbreviation _check_server_sync :=
  (_check_server_sync subprocess_run time_time config).

(** A failing remote command always carries a message. *)
Lemma _run_ssh_command_message server command w e w' :
  _run_ssh_command subprocess_run config server command w = (Raise e, w') ->
  exn_str e <> "".
Proof.
  rewrite _run_ssh_command_eq.
  destruct (subprocess_run _ _ w) as [[result|e0] w1].
  - destruct (returncode result =? 0); [done|].
    intros [= <- _]. unfold classify.
    repeat (destruct (Str.contains _ _); [done|]). done.
  - destruct (isinstance e0 CTimeoutExpired); by intros [= <- _].
Qed.

Lemma fetch_message server cmd w e w' :
  fetch server cmd w = (Raise e, w') -> exn_str e <> "".
Proof.
  unfold fetch, mbind, M_bind, lift, Py.getitem.
  destruct (commands config !! cmd) as [command|].
  - apply _run_ssh_command_message.
  - by intros [= <- _].
Qed.

Lemma run_and_store_eq server cmd key parse d w :
  run_and_store server cmd key parse (d, w)
  = match fetch server cmd w with
    | (Ok output, w') =>
        match parse output with
        | Ok v => (Ok tt, (<[key := v]> d, w'))
        | Raise e => (Raise e, (d, w'))
        end
    | (Raise e, w') => (Raise e, (d, w'))
    end.
Proof.
  unfold run_and_store, mbind, M_bind, in_world, lift, setitem.
  destruct (fetch server cmd w) as [[output|e] w']; [|done].
  by destruct (parse output).
Qed.

(** Either a mandatory command fails or the three of them succeed. *)
Lemma mandatory_outcome server w :
  (exists e w', mandatory_failure server w e w')
  \/ (exists w', mandatory_success server w w').
Proof.
  destruct (fetch server "cpu_usage" w) as [[o1|e] w1] eqn:H1;
    [|left; exists e, w1; by eapply cpu_failed].
  destruct (fetch server "memory_usage" w1) as [[o2|e] w2] eqn:H2;
    [|left; exists e, w2; by eapply memory_failed].
  destruct (fetch server "load_average" w2) as [[o3|e] w3] eqn:H3;
    [|left; exists e, w3; by eapply load_failed].
  right. exists w3. by eapply mandatory_ok.
Qed.

Lemma mandatory_success_cpu server w w' :
  mandatory_success server w w' ->
  cpu_succeeds server w /\ memory_succeeds server w.
Proof.
  intros [o1 w1 o2 w2 o3 H1 H2 H3]. split.
  - by exists o1, w1.
  - by exists o1, w1, o2, w2.
Qed.

(** The mandatory stage raises the first failure and runs nothing after
    it; the metrics stored before it stay, and nothing else is touched. *)
Lemma mandatory_stage_failure server d w e w' :
  d !! "cpu_usage" = None -> d !! "memory_usage" = None ->
  mandatory_failure server w e w' ->
  exists d',
    mandatory_stage server (d, w) = (Raise e, (d', w'))
    /\ d' !! "load_average" = d !! "load_average"
    /\ (forall k, k <> "cpu_usage" -> k <> "memory_usage" ->
                  d' !! k = d !! k)
    /\ (is_Some (d' !! "cpu_usage") <-> cpu_succeeds server w)
    /\ (is_Some (d' !! "memory_usage") <-> memory_succeeds server w).
Proof.
  unfold mandatory_stage, mbind, M_bind, cpu_succeeds, memory_succeeds.
  intros Hc Hm [H1|o1 w1 H1 H2|o1 w1 o2 w2 H1 H2 H3];
    rewrite run_and_store_eq, H1.
  - exists d. split; [done|]. split; [done|]. split; [done|].
    rewrite Hc, Hm. split; split.
    + by intros [? ?].
    + by intros (? & ? & ?).
    + by intros [? ?].
    + by intros (? & ? & ? & ? & ? & ?).
  - destruct (parse_cpu_usage_total o1) as [v1 ->].
    rewrite run_and_store_eq, H2.
    eexists. split; [done|]. split; [by rewrite lookup_insert_ne|].
    split; [intros k Hk _; by rewrite lookup_insert_ne|].
    rewrite lookup_insert_eq, lookup_insert_ne, Hm by done. split; split.
    + intros _. by exists o1, w1.
    + done.
    + by intros [? ?].
    + intros (o1' & w1' & o2' & w2' & [= <- <-] & H2'). congruence.
  - destruct (parse_cpu_usage_total o1) as [v1 ->].
    rewrite run_and_store_eq, H2.
    destruct (parse_memory_usage_total o2) as [v2 ->].
    rewrite run_and_store_eq, H3.
    eexists. split; [done|].
    split; [by rewrite !lookup_insert_ne|].
    split; [intros k Hk Hk'; by rewrite !lookup_insert_ne|].
    rewrite lookup_insert_eq, lookup_insert_ne, lookup_insert_eq by done.
    split; split.
    + intros _. by exists o1, w1.
    + done.
    + intros _. by exists o1, w1, o2, w2.
    + done.
Qed.

Lemma mandatory_stage_success server d w w' :
  mandatory_success server w w' ->
  exists v1 v2 v3,
    mandatory_stage server (d, w)
    = (Ok tt, (<["load_average" := v3]>
                 (<["memory_usage" := v2]>
                    (<["cpu_usage" := v1]> d)), w')).
Proof.
  unfold mandatory_stage, mbind, M_bind.
  intros [o1 w1 o2 w2 o3 H1 H2 H3].
  rewrite run_and_store_eq, H1.
  destruct (parse_cpu_usage_total o1) as [v1 ->].
  rewrite run_and_store_eq, H2.
  destruct (parse_memory_usage_total o2) as [v2 ->].
  rewrite run_and_store_eq, H3.
  destruct (parse_load_average_total o3) as [v3 ->].
  by exists v1, v2, v3.
Qed.

(** A command of the GPU stage only stores under its own key. *)
Lemma run_and_store_frame server cmd key parse d w r d' w' :
  run_and_store server cmd key parse (d, w) = (r, (d', w')) ->
  forall k, k <> key -> d' !! k = d !! k.
Proof.
  rewrite run_and_store_eq.
  destruct (fetch server cmd w) as [[output|e] w1];
    [destruct (parse output)|]; intros [= _ <- _] k Hk;
    [by rewrite lookup_insert_ne|done|done].
Qed.

Lemma gpu_stage_frame server d w r d' w' :
  gpu_stage server (d, w) = (r, (d', w')) ->
  forall k, k <> "gpu_usage" -> k <> "gpu_memory" -> k <> "gpu_processes" ->
            d' !! k = d !! k.
Proof.
  unfold gpu_stage, mbind, M_bind.
  destruct (run_and_store server "gpu_usage" _ _ (d, w))
    as [[[]|e1] [d1 w1]] eqn:H1.
  2:{ intros [= _ <- _] k Hk _ _. by eapply run_and_store_frame. }
  destruct (run_and_store server "gpu_memory" _ _ (d1, w1))
    as [[[]|e2] [d2 w2]] eqn:H2.
  2:{ intros [= _ <- _] k Hk Hk' _.
      rewrite (run_and_store_frame _ _ _ _ _ _ _ _ _ H2 k Hk').
      by eapply run_and_store_frame. }
  destruct (bool_decide _).
  - intros H3 k Hk Hk' Hk''.
    rewrite (run_and_store_frame _ _ _ _ _ _ _ _ _ H3 k Hk'').
    rewrite (run_and_store_frame _ _ _ _ _ _ _ _ _ H2 k Hk').
    by eapply run_and_store_frame.
  - intros [= _ <- _] k Hk Hk' _.
    rewrite (run_and_store_frame _ _ _ _ _ _ _ _ _ H2 k Hk').
    by eapply run_and_store_frame.
Qed.

(** The GPU stage raises the first failure and runs nothing after it. *)
Lemma gpu_stage_failure server d w e w' :
  gpu_failure server w e w' ->
  exists d', gpu_stage server (d, w) = (Raise e, (d', w')).
Proof.
  unfold gpu_stage, mbind, M_bind.
  intros [H1|o1 w1 H1 H2|o1 w1 o2 w2 H1 H2 Hcfg H3];
    rewrite run_and_store_eq, H1.
  - by eexists.
  - destruct (parse_gpu_usage_total o1) as [v1 ->].
    rewrite run_and_store_eq, H2. by eexists.
  - destruct (parse_gpu_usage_total o1) as [v1 ->].
    rewrite run_and_store_eq, H2.
    destruct (parse_gpu_memory_total o2) as [v2 ->].
    rewrite bool_decide_true by done.
    rewrite run_and_store_eq, H3. by eexists.
Qed.

Lemma gpu_failure_message server w e w' :
  gpu_failure server w e w' -> exn_str e <> "".
Proof. intros [H|? ? _ H|? ? ? ? _ _ _ H]; by eapply fetch_message. Qed.

Lemma mandatory_failure_message server w e w' :
  mandatory_failure server w e w' -> exn_str e <> "".
Proof. intros [H|? ? _ H|? ? ? ? _ _ H]; by eapply fetch_message. Qed.

Lemma _check_server_sync_eq server w :
  _check_server_sync server w
  = let '(now, w0) := time_time w in
    match check_body server (initial_data server now, w0) with
    | (Ok _, (data, w')) => (Ok (<["online" := PBool true]> data), w')
    | (Raise e, (data, w')) =>
        (Ok (<["online" := PBool false]>
               (<["error" := PStr (exn_str e)]> data)), w')
    end.
Proof.
  unfold _check_server_sync, with_dict, try_except_else,
    mbind, M_bind, setitem, the_dict, initial_data.
  destruct (time_time w) as [now w0].
  by destruct (check_body server _) as [[[]|e] [data w']].
Qed.

Lemma initial_data_lookup server now k :
  k <> "name" -> k <> "host" -> k <> "has_gpu" -> k <> "checked_at" ->
  initial_data server now !! k = None.
Proof.
  intros. unfold initial_data. by rewrite !lookup_insert_ne, lookup_empty.
Qed.

Lemma check_body_failure server d w e w' :
  d !! "cpu_usage" = None -> d !! "memory_usage" = None ->
  mandatory_failure server w e w' ->
  exists d',
    check_body server (d, w) = (Raise e, (d', w'))
    /\ d' !! "load_average" = d !! "load_average"
    /\ (forall k, k <> "cpu_usage" -> k <> "memory_usage" ->
                  d' !! k = d !! k)
    /\ (is_Some (d' !! "cpu_usage") <-> cpu_succeeds server w)
    /\ (is_Some (d' !! "memory_usage") <-> memory_succeeds server w).
Proof.
  intros Hc Hm Hf.
  destruct (mandatory_stage_failure server d w e w' Hc Hm Hf)
    as (d' & Hs & Hrest).
  exists d'. unfold check_body, mbind, M_bind.
  by rewrite Hs.
Qed.

(** When the mandatory stage succeeds, the body ends normally whatever the
    GPU stage does, and the GPU stage only touches the GPU keys. *)
Lemma check_body_success server d w w3 :
  mandatory_success server w w3 ->
  exists v1 v2 v3 d' w',
    check_body server (d, w) = (Ok tt, (d', w'))
    /\ forall k, k <> "gpu_usage" -> k <> "gpu_memory" ->
                 k <> "gpu_processes" -> k <> "gpu_error" ->
         d' !! k = (<["load_average" := v3]>
                      (<["memory_usage" := v2]>
                         (<["cpu_usage" := v1]> d))) !! k.
Proof.
  intros Hs. destruct (mandatory_stage_success server d w w3 Hs)
    as (v1 & v2 & v3 & Hm).
  exists v1, v2, v3. unfold check_body, mbind, M_bind.
  rewrite Hm. destruct (has_gpu server); [|by eexists _, _].
  unfold try_catch.
  destruct (gpu_stage server _) as [[[]|e] [d' w']] eqn:Hg.
  - exists d', w'. split; [done|]. intros k H1 H2 H3 _.
    by eapply gpu_stage_frame.
  - simpl. eexists _, w'. split; [done|]. intros k H1 H2 H3 H4.
    rewrite lookup_insert_ne by done. by eapply gpu_stage_frame.
Qed.

Lemma check_body_gpu_failure server d w w3 e w' :
  has_gpu server = true ->
  mandatory_success server w w3 ->
  gpu_failure server w3 e w' ->
  exists d',
    check_body server (d, w)
    = (Ok tt, (<["gpu_error" := PStr (exn_str e)]> d', w'))
    /\ d' !! "error" = d !! "error".
Proof.
  intros Hgpu Hs Hf. destruct (mandatory_stage_success server d w w3 Hs)
    as (v1 & v2 & v3 & Hm).
  unfold check_body, mbind, M_bind. rewrite Hm, Hgpu.
  destruct (gpu_stage_failure server
              (<["load_average" := v3]>
                 (<["memory_usage" := v2]> (<["cpu_usage" := v1]> d)))
              w3 e w' Hf)
    as (d' & Hg).
  unfold try_catch. rewrite Hg. simpl. exists d'. split; [done|].
  rewrite (gpu_stage_frame _ _ _ _ _ _ Hg "error") by done.
  by rewrite !lookup_insert_ne.
Qed.

(** C3: when one of the three mandatory commands fails, the check stops
    there: no further command is run, and the snapshot has [online] false,
    carries the message of that first failure in [error], and holds none of
    the GPU keys. *)
Theorem mandatory_failure_offline server w e w' :
  mandatory_failure server (time_time w).2 e w' ->
  exists data,
    _check_server_sync server w = (Ok data, w')
    /\ data !! "online" = Some (PBool false)
    /\ data !! "error" = Some (PStr (exn_str e))
    /\ exn_str e <> ""
    /\ data !! "gpu_usage" = None
    /\ data !! "gpu_memory" = None
    /\ data !! "gpu_processes" = None
    /\ data !! "gpu_error" = None.
Proof.
  intros Hf. rewrite _check_server_sync_eq.
  destruct (time_time w) as [now w0]. simpl in Hf.
  destruct (check_body_failure server (initial_data server now) w0 e w'
              eq_refl eq_refl Hf)
    as (d' & -> & _ & Hk & _).
  eexists. split; [done|].
  split; [by rewrite lookup_insert_eq|].
  split; [by rewrite lookup_insert_ne, lookup_insert_eq|].
  split; [by eapply mandatory_failure_message|].
  repeat split; rewrite !lookup_insert_ne by done;
    rewrite Hk by done; by apply initial_data_lookup.
Qed.

(** C4: on a GPU-capable host whose three mandatory commands succeed, a
    failure of a command of the GPU stage ends the check with a snapshot
    that has [online] true, the message of the failure in [gpu_error], and
    no [error]. *)
Theorem gpu_failure_keeps_online server w w3 e w' :
  has_gpu server = true ->
  mandatory_success server (time_time w).2 w3 ->
  gpu_failure server w3 e w' ->
  exists data,
    _check_server_sync server w = (Ok data, w')
    /\ data !! "online" = Some (PBool true)
    /\ data !! "gpu_error" = Some (PStr (exn_str e))
    /\ exn_str e <> ""
    /\ data !! "error" = None.
Proof.
  intros Hgpu Hs Hf. rewrite _check_server_sync_eq.
  destruct (time_time w) as [now w0]. simpl in Hs.
  destruct (check_body_gpu_failure server (initial_data server now)
              w0 w3 e w' Hgpu Hs Hf) as (d' & -> & He).
  eexists. split; [done|].
  split; [by rewrite lookup_insert_eq|].
  split; [by rewrite lookup_insert_ne, lookup_insert_eq|].
  split; [by eapply gpu_failure_message|].
  rewrite !lookup_insert_ne by done. rewrite He.
  by apply initial_data_lookup.
Qed.

(** C10, as amended: every snapshot holds [name], [host], [has_gpu],
    [checked_at] and a boolean [online]; [error] is present exactly when
    [online] is false.  A mandatory metric key is present exactly when its
    command and the ones before it succeeded: [load_average], and so the
    three keys together, exactly when [online] is true, but [cpu_usage] and
    [memory_usage] also on an offline snapshot when the failure came after
    them. *)
Theorem snapshot_shape server w :
  exists data w' online,
    _check_server_sync server w = (Ok data, w')
    /\ data !! "name" = Some (PStr (name server))
    /\ data !! "host" = Some (PStr (host server))
    /\ data !! "has_gpu" = Some (PBool (has_gpu server))
    /\ data !! "checked_at" = Some (PFloat (FFin (time_time w).1))
    /\ data !! "online" = Some (PBool online)
    /\ (is_Some (data !! "error") <-> online = false)
    /\ (is_Some (data !! "cpu_usage") /\ is_Some (data !! "memory_usage")
        /\ is_Some (data !! "load_average") <-> online = true)
    /\ (is_Some (data !! "load_average") <-> online = true)
    /\ (is_Some (data !! "memory_usage")
        <-> memory_succeeds server (time_time w).2)
    /\ (is_Some (data !! "cpu_usage") <-> cpu_succeeds server (time_time w).2).
Proof.
  rewrite _check_server_sync_eq. destruct (time_time w) as [now w0] eqn:Ht.
  simpl. destruct (mandatory_outcome server w0) as [(e & w' & Hf)|[w3 Hs]].
  - destruct (check_body_failure server (initial_data server now) w0 e w'
                eq_refl eq_refl Hf)
      as (d' & -> & Hl & Hk & Hcpu & Hmem).
    assert (Hload : d' !! "load_average" = None)
      by (rewrite Hl; by apply initial_data_lookup).
    eexists _, w', false. split; [done|].
    do 4 (split; [rewrite !lookup_insert_ne by done; by rewrite Hk|]).
    split; [by rewrite lookup_insert_eq|].
    split; [rewrite lookup_insert_ne, lookup_insert_eq by done; by split|].
    rewrite !(lookup_insert_ne _ _ "load_average") by done.
    rewrite !(lookup_insert_ne _ _ "memory_usage") by done.
    rewrite !(lookup_insert_ne _ _ "cpu_usage") by done.
    rewrite Hload.
    split; [split; [intros (_ & _ & [? ?]); done|done]|].
    split; [split; [intros [? ?]; done|done]|].
    by split.
  - destruct (mandatory_success_cpu server w0 w3 Hs) as [Hcpu Hmem].
    destruct (check_body_success server (initial_data server now) w0 w3 Hs)
      as (v1 & v2 & v3 & d' & w' & -> & Hk).
    eexists _, w', true. split; [done|].
    do 4 (split; [rewrite lookup_insert_ne by done; by rewrite Hk|]).
    split; [by rewrite lookup_insert_eq|].
    rewrite !lookup_insert_ne by done. rewrite !Hk by done.
    split.
    { rewrite !lookup_insert_ne by done.
      rewrite initial_data_lookup by done. split; [by intros [? ?]|done]. }
    rewrite lookup_insert_eq.
    rewrite (lookup_insert_ne _ "load_average" "memory_usage") by done.
    rewrite lookup_insert_eq.
    rewrite !(lookup_insert_ne _ _ "cpu_usage") by done.
    rewrite lookup_insert_eq.
    repeat split; try done.
Qed.

(** ** The cache *)

Local Abbreviation cache_lookup := (cache_lookup time_time config).
Local Abbreviation check_server :=
  (check_server subprocess_run time_time config).

(** Every check returns a snapshot that names its host and carries the
    time at which the check started. *)
Lemma _check_server_sync_identity server w :
  exists data w',
    _check_server_sync server w = (Ok data, w')
    /\ data !! "name" = Some (PStr (name server))
    /\ data !! "checked_at" = Some (PFloat (FFin (time_time w).1)).
Proof.
  rewrite _check_server_sync_eq. destruct (time_time w) as [now w0].
  simpl. destruct (mandatory_outcome server w0) as [(e & w' & Hf)|[w3 Hs]].
  - destruct (check_body_failure server (initial_data server now) w0 e w'
                eq_refl eq_refl Hf)
      as (d' & -> & _ & Hk & _).
    eexists _, w'. split; [done|].
    split; rewrite !lookup_insert_ne by done; by rewrite Hk.
  - destruct (check_body_success server (initial_data server now) w0 w3 Hs)
      as (v1 & v2 & v3 & d' & w' & -> & Hk).
    eexists _, w'. split; [done|].
    split; rewrite lookup_insert_ne by done; by rewrite Hk.
Qed.

Lemma cache_ok_empty : cache_ok ∅.
Proof. apply map_Forall_empty. Qed.

Lemma clear_cache_ok (st : gmap string snapshot * World) :
  cache_ok (clear_cache st).1.
Proof. apply map_Forall_empty. Qed.

Lemma cache_lookup_ok cache server use_cache w :
  cache_ok cache ->
  cache_lookup cache server use_cache w
  = match (if use_cache then cache !! name server else None) with
    | Some cached =>
        let '(now, w1) := time_time w in
        (Ok (if within_ttl now cached then Some cached else None), w1)
    | None => (Ok None, w)
    end.
Proof.
  intros Hok. unfold cache_lookup.
  destruct use_cache; [|done]. simpl.
  destruct (cache !! name server) as [cached|] eqn:Hc.
  2:{ rewrite bool_decide_false; [done|]. by intros [? ?]. }
  rewrite bool_decide_true by done.
  destruct (Hok _ _ Hc) as (_ & t & Ht).
  unfold mbind, M_bind, lift, Py.getitem, within_ttl. rewrite Hc.
  destruct (time_time w) as [now w1]. rewrite Ht. simpl.
  by destruct (num_lt _ _).
Qed.

Lemma check_server_eq server use_cache cache w :
  check_server server use_cache (cache, w)
  = match cache_lookup cache server use_cache w with
    | (Ok (Some cached), w1) => (Ok cached, (cache, w1))
    | (Ok None, w1) =>
        match _check_server_sync server w1 with
        | (Ok data, w2) => (Ok data, (<[name server := data]> cache, w2))
        | (Raise e, w2) => (Raise e, (cache, w2))
        end
    | (Raise e, w1) => (Raise e, (cache, w1))
    end.
Proof.
  unfold check_server, mbind, M_bind, the_dict, in_world, setitem.
  destruct (cache_lookup cache server use_cache w) as [[[cached|]|e] w1];
    try done.
  by destruct (_check_server_sync server w1) as [[data|e] w2].
Qed.

(** C5: a call of [check_server] returns a snapshot.  It is the cached one
    only when the cache was asked, holds one, and its age
    [now - checked_at] is strictly below the TTL; the cache is then left as
    it is and no command is run.  A cached snapshot that is not strictly
    younger than the TTL is not returned: the host is checked again.  Every
    check that is run, after a stale entry or without any, has its snapshot
    written into the cache under the name of the host before it is
    returned, whether the host turned out online or not. *)
Theorem check_server_cache_discipline server use_cache cache w :
  cache_ok cache ->
  exists snap cache' w',
    check_server server use_cache (cache, w) = (Ok snap, (cache', w'))
    /\ cache_ok cache'
    /\ ((use_cache = true
         /\ cache !! name server = Some snap
         /\ within_ttl (time_time w).1 snap = true
         /\ cache' = cache
         /\ w' = (time_time w).2)
        \/ (cache' = <[name server := snap]> cache
            /\ use_cache = true
            /\ (exists stale, cache !! name server = Some stale
                   /\ within_ttl (time_time w).1 stale = false)
            /\ _check_server_sync server (time_time w).2 = (Ok snap, w'))
        \/ (cache' = <[name server := snap]> cache
            /\ (use_cache = false \/ cache !! name server = None)
            /\ _check_server_sync server w = (Ok snap, w'))).
Proof.
  intros Hok. rewrite check_server_eq, (cache_lookup_ok _ _ _ _ Hok).
  assert (Hmiss : forall w1,
    exists snap w',
      _check_server_sync server w1 = (Ok snap, w')
      /\ cache_ok (<[name server := snap]> cache)).
  { intros w1.
    destruct (_check_server_sync_identity server w1)
      as (data & w2 & Hs & Hn & Ht).
    exists data, w2. split; [done|].
    apply map_Forall_insert_2; [|done]. split; [done|by eexists]. }
  destruct use_cache; simpl.
  - destruct (cache !! name server) as [cached|] eqn:Hc.
    + destruct (time_time w) as [now w1]. simpl.
      destruct (within_ttl now cached) eqn:Hfresh.
      * exists cached, cache, w1. split; [done|]. split; [done|].
        by left.
      * destruct (Hmiss w1) as (snap & w' & Hs & Hok').
        rewrite Hs. eexists snap, _, w'. split; [done|]. split; [done|].
        right. left. split; [done|]. split; [done|].
        split; [by exists cached|done].
    + destruct (Hmiss w) as (snap & w' & Hs & Hok').
      rewrite Hs. eexists snap, _, w'. split; [done|]. split; [done|].
      right. right. split; [done|]. split; [by right|done].
  - destruct (Hmiss w) as (snap & w' & Hs & Hok').
    rewrite Hs. eexists snap, _, w'. split; [done|]. split; [done|].
    right. right. split; [done|]. split; [by left|done].
Qed.

(** ** The batch *)

Local Abbreviation start_tasks := (start_tasks time_time config).
Local Abbreviation complete := (complete subprocess_run time_time config).
Local Abbreviation check_servers :=
  (check_servers subprocess_run time_time config).

(** With a well-formed cache no task fails at its start: it returns the
    cached snapshot of its host or submits the check of its host. *)
Lemma start_tasks_ok cache use_cache servers w :
  cache_ok cache ->
  Forall2
    (fun server t =>
       t = Running server
       \/ exists cached, t = Returned (Ok cached)
                         /\ cache !! name server = Some cached)
    servers (start_tasks cache servers use_cache w).1.
Proof.
  intros Hok. revert w.
  induction servers as [|server rest IH]; intros w; simpl; [constructor|].
  rewrite (cache_lookup_ok _ _ _ _ Hok).
  destruct (if use_cache then cache !! name server else None)
    as [cached|] eqn:Hc.
  - destruct (time_time w) as [now w1].
    specialize (IH w1). destruct (start_tasks cache rest use_cache w1).
    simpl. constructor; [|done].
    destruct (within_ttl now cached); [|by left].
    right. exists cached. split; [done|]. by destruct use_cache.
  - specialize (IH w). destruct (start_tasks cache rest use_cache w).
    simpl. constructor; [|done]. by left.
Qed.

Lemma complete_length jobs i st :
  length (complete jobs i st).1 = length st.1.
Proof.
  unfold complete. destruct (st.1 !! i) as [[r|server]|]; [done| |done].
  destruct (_check_server_sync server (jobs i)).1; simpl;
    by rewrite length_insert.
Qed.

(** After the completions [sched], a task has returned if its index is in
    [sched]; the others are as they were. *)
Lemma completions_lookup jobs sched tasks cache i t :
  tasks !! i = Some t ->
  (fold_left (fun st j => complete jobs j st) sched (tasks, cache)).1 !! i
  = Some (if bool_decide (i ∈ sched) then Returned (task_result jobs i t)
          else t).
Proof.
  intros Ht. induction sched as [|j sched IH] using rev_ind.
  - cbn [fold_left fst]. rewrite bool_decide_false; [done|].
    apply not_elem_of_nil.
  - rewrite fold_left_app. cbn [fold_left].
    set (st := fold_left _ sched (tasks, cache)) in *.
    assert (Hlen : (i < length st.1)%nat)
      by (eapply lookup_lt_Some; exact IH).
    unfold complete. destruct (decide (i = j)) as [<-|Hne].
    + rewrite (bool_decide_true (i ∈ sched ++ [i]))
        by (rewrite elem_of_app, list_elem_of_singleton; tauto).
      rewrite IH. destruct (bool_decide (i ∈ sched)); [done|].
      destruct t as [r|server]; [done|]. simpl.
      destruct (_check_server_sync server (jobs i)).1; simpl;
        by rewrite list_lookup_insert_eq.
    + assert (Hin : bool_decide (i ∈ sched ++ [j])
                    = bool_decide (i ∈ sched))
        by (apply bool_decide_ext;
            rewrite elem_of_app, list_elem_of_singleton; tauto).
      rewrite Hin.
      destruct (st.1 !! j) as [[r|server]|]; [done| |done].
      destruct (_check_server_sync server (jobs j)).1; simpl;
        by rewrite list_lookup_insert_ne.
Qed.



Lemma completions_length jobs sched tasks cache :
  length (fold_left (fun st j => complete jobs j st) sched (tasks, cache)).1
  = length tasks.
Proof.
  induction sched as [|j sched IH] using rev_ind; [done|].
  rewrite fold_left_app. cbn [fold_left]. by rewrite complete_length.
Qed.


(** While a submitted check has not completed, the batch does not
    return: there is no partial result. *)
Lemma gather_no_raise tasks e :
  Forall (fun t => forall e, t <> Returned (Raise e)) tasks ->
  gather tasks <> Some (Raise e).
Proof.
  induction tasks as [|t tasks IH]; intros Hall; [done|].
  apply Forall_cons in Hall as [Ht Hall]. specialize (IH Hall).
  destruct t as [[d|e']|server]; simpl.
  - by destruct (gather tasks) as [[ds|e'']|].
  - by destruct (Ht e').
  - by destruct (gather tasks) as [[ds|e'']|].
Qed.

Lemma gather_pending tasks server :
  Forall (fun t => forall e, t <> Returned (Raise e)) tasks ->
  Running server ∈ tasks ->
  gather tasks = None.
Proof.
  induction tasks as [|t tasks IH]; intros Hall Hin.
  - by apply elem_of_nil in Hin.
  - apply Forall_cons in Hall as [Ht Hall].
    pose proof (fun e => gather_no_raise tasks e Hall) as Hnr.
    destruct t as [[d|e']|server']; simpl.
    + apply elem_of_cons in Hin as [Hin|Hin]; [done|].
      by rewrite (IH Hall Hin).
    + by destruct (Ht e').
    + destruct (gather tasks) as [[ds|e'']|]; [done| |done].
      by destruct (Hnr e'').
Qed.

Lemma check_servers_waits servers use_cache jobs sched cache w i server :
  cache_ok cache ->
  (start_tasks cache servers use_cache w).1 !! i = Some (Running server) ->
  i ∉ sched ->
  (check_servers servers use_cache jobs sched (cache, w)).1 = None.
Proof.
  intros Hok Hrun Hnot. unfold check_servers. cbn [fst snd].
  pose proof (start_tasks_ok cache use_cache servers w Hok) as Hstart.
  destruct (start_tasks cache servers use_cache w) as [tasks0 w'].
  cbn [fst] in *.
  pose proof (completions_length jobs sched tasks0 cache) as Hlen.
  pose proof (fun i t => completions_lookup jobs sched tasks0 cache i t)
    as Hlk.
  destruct (fold_left _ sched (tasks0, cache)) as [tasks cache'].
  cbn [fst snd] in *.
  apply (gather_pending tasks server).
  - apply Forall_lookup. intros j t Hj e ->.
    assert (Hj0 : (j < length tasks0)%nat)
      by (rewrite <- Hlen; by eapply lookup_lt_Some).
    destruct (lookup_lt_is_Some_2 tasks0 j Hj0) as [t0 Ht0].
    rewrite (Hlk j t0 Ht0) in Hj.
    destruct (Forall2_lookup_r _ _ _ _ _ Hstart Ht0)
      as (srv & Hs & [->|(cached & -> & _)]).
    + destruct (_check_server_sync_identity srv (jobs j))
        as (data & w1 & Hsync & _).
      simpl in Hj. rewrite Hsync in Hj.
      by destruct (bool_decide (j ∈ sched)).
    + simpl in Hj. by destruct (bool_decide (j ∈ sched)).
  - apply list_elem_of_lookup. exists i.
    by rewrite (Hlk i _ Hrun), bool_decide_false.
Qed.

(** A batch of one host whose job sees the world as [check_server] leaves
    it after the test of the cache is [check_server]. *)
Lemma check_servers_single server use_cache cache w jobs :
  cache_ok cache ->
  jobs 0%nat = (cache_lookup cache server use_cache w).2 ->
  (check_servers [server] use_cache jobs [0%nat] (cache, w)).1
  = Some ((fun d => [d]) <$> (check_server server use_cache (cache, w)).1)
  /\ (check_servers [server] use_cache jobs [0%nat] (cache, w)).2.1
     = (check_server server use_cache (cache, w)).2.1.
Proof.
  intros Hok Hjob. rewrite check_server_eq.
  unfold check_servers. cbn [fst snd]. unfold start_tasks.
  rewrite (cache_lookup_ok cache server use_cache w Hok) in *.
  destruct (if use_cache then cache !! name server else None) as [cached|].
  - destruct (time_time w) as [now w1]. cbn [snd] in Hjob.
    destruct (within_ttl now cached).
    + by cbn.
    + cbn [fold_left]. unfold complete. cbn [fst snd lookup list_lookup].
      rewrite Hjob.
      destruct (_check_server_sync_identity server w1)
        as (data & w2 & -> & _).
      by cbn.
  - cbn [snd] in Hjob. cbn [fold_left]. unfold complete.
    cbn [fst snd lookup list_lookup]. rewrite Hjob.
    destruct (_check_server_sync_identity server w)
      as (data & w2 & -> & _).
    by cbn.
Qed.

End ServerCheckerFacts.

(** ** The engine at work in the scripted world *)

(** C1: the selection raises on a batch that the checks produce.  The CPU
    command of [ermine] prints nothing, so [cpu_usage] holds [None] on an
    online snapshot; with no criteria both snapshots reach [score_server],
    where the default of [server.get('cpu_usage', 100)] does not apply to a
    present key and [None + 41.5] raises [TypeError]. *)
Theorem select_best_raises_on_unparsed_cpu :
  let data :=
    checked ermine
      (Script.World 1000
         [Script.exit0 ""; Script.exit0 "41.5";
          Script.exit0 "0.10, 0.20, 0.30"]) in
  let other :=
    checked orca01
      (Script.World 1000
         [Script.exit0 "12.5"; Script.exit0 "40"; Script.exit0 "0.1 0.2 0.3";
          Script.exit0 "35"; Script.exit0 "1000,4000"]) in
  data !! "online" = Some (PBool true)
  /\ data !! "cpu_usage" = Some PNone
  /\ data !! "memory_usage" = Some (PFloat (FFin (83 # 2)))
  /\ other !! "online" = Some (PBool true)
  /\ score_server other = Ok (NFloat (FFin (175 # 2)))
  /\ filter_servers false None None [data; other] = Ok [data; other]
  /\ select_best false None None [data; other]
     = Raise (Exn CTypeError
                "unsupported operand type(s) for +: 'NoneType' and 'float'")
  /\ select_best false None None [other; data]
     = Raise (Exn CTypeError
                "unsupported operand type(s) for +: 'NoneType' and 'float'").
Proof. repeat split; reflexivity. Qed.



(** The lower score wins, the first of two equal scores wins, and there is
    no match when every candidate is offline or above [max_cpu]. *)
Example select_best_lowest_first :
  select_best false None None example_batch
  = Ok (Some (online_snapshot "b" (PFloat (FFin 5)) (PFloat (FFin 5))))
  /\ select_best false (Some (NInt 3)) None example_batch = Ok None
  /\ select_best false None None
       [snapshot_of [("name", PStr "d"); ("online", PBool false);
                     ("error", PStr "Connection timeout to d")]]
     = Ok None.
Proof. repeat split; reflexivity. Qed.

(** C10, counterexample: the memory command times out after the CPU command
    has succeeded.  The snapshot is offline and holds [cpu_usage]. *)
Lemma offline_snapshot_keeps_cpu_usage :
  let data :=
    checked ermine
      (Script.World 1000 [Script.exit0 "12.5"; Script.timed_out]) in
  data !! "online" = Some (PBool false)
  /\ data !! "error" = Some (PStr "Connection timeout to ermine.example.org")
  /\ data !! "cpu_usage" = Some (PFloat (FFin (25 # 2)))
  /\ data !! "memory_usage" = None
  /\ data !! "load_average" = None.
Proof. repeat split; reflexivity. Qed.

Lemma mandatory_failure_offline_witness :
  let w := Script.World 1000 [Script.exit0 "12.5"; Script.timed_out] in
  let e := Exn CException "Connection timeout to ermine.example.org" in
  let w' := Script.World 1001 [] in
  mandatory_failure Script.subprocess_run example_config ermine
    (Script.time_time w).2 e w'
  /\ exists data,
       _check_server_sync Script.subprocess_run Script.time_time
         example_config ermine w = (Ok data, w')
       /\ data !! "online" = Some (PBool false)
       /\ data !! "error" = Some (PStr (exn_str e))
       /\ exn_str e <> ""
       /\ data !! "gpu_usage" = None
       /\ data !! "gpu_memory" = None
       /\ data !! "gpu_processes" = None
       /\ data !! "gpu_error" = None.
Proof.
  intros w e w'.
  assert (H : mandatory_failure Script.subprocess_run example_config ermine
                (Script.time_time w).2 e w').
  { eapply memory_failed; reflexivity. }
  split; [exact H|].
  exact (mandatory_failure_offline Script.subprocess_run Script.time_time
           example_config ermine w e w' H).
Defined.

Lemma gpu_failure_keeps_online_witness :
  let w :=
    Script.World 1000
      [Script.exit0 "12.5"; Script.exit0 "40"; Script.exit0 "0.1 0.2 0.3";
       Script.exit0 "35";
       Script.failed 255 "ssh: connect to host orca01: Connection refused"] in
  let w3 :=
    Script.World 1001
      [Script.exit0 "35";
       Script.failed 255 "ssh: connect to host orca01: Connection refused"] in
  let e :=
    Exn CException "SSH failed: Connection refused to orca01.example.org" in
  let w' := Script.World 1001 [] in
  has_gpu orca01 = true
  /\ mandatory_success Script.subprocess_run example_config orca01
       (Script.time_time w).2 w3
  /\ gpu_failure Script.subprocess_run example_config orca01 w3 e w'
  /\ exists data,
       _check_server_sync Script.subprocess_run Script.time_time
         example_config orca01 w = (Ok data, w')
       /\ data !! "online" = Some (PBool true)
       /\ data !! "gpu_error" = Some (PStr (exn_str e))
       /\ exn_str e <> ""
       /\ data !! "error" = None.
Proof.
  intros w w3 e w'.
  assert (H1 : has_gpu orca01 = true) by reflexivity.
  assert (H2 : mandatory_success Script.subprocess_run example_config orca01
                 (Script.time_time w).2 w3).
  { eapply mandatory_ok; reflexivity. }
  assert (H3 : gpu_failure Script.subprocess_run example_config orca01
                 w3 e w').
  { eapply gpu_memory_failed; reflexivity. }
  split; [exact H1|]. split; [exact H2|]. split; [exact H3|].
  exact (gpu_failure_keeps_online Script.subprocess_run Script.time_time
           example_config orca01 w w3 e w' H1 H2 H3).
Defined.

Lemma example_cache_ok : cache_ok example_cache.
Proof.
  apply map_Forall_singleton. split; [reflexivity|].
  eexists. reflexivity.
Defined.

Lemma check_server_cache_discipline_witness :
  let w := Script.World 1010 [Script.exit0 "12.5"] in
  cache_ok example_cache
  /\ exists snap cache' w',
       check_server Script.subprocess_run Script.time_time example_config
         ermine true (example_cache, w) = (Ok snap, (cache', w'))
       /\ cache_ok cache'
       /\ ((true = true
            /\ example_cache !! name ermine = Some snap
            /\ within_ttl example_config (Script.time_time w).1 snap = true
            /\ cache' = example_cache
            /\ w' = (Script.time_time w).2)
           \/ (cache' = <[name ermine := snap]> example_cache
               /\ true = true
               /\ (exists stale,
                     example_cache !! name ermine = Some stale
                     /\ within_ttl example_config (Script.time_time w).1 stale
                        = false)
               /\ _check_server_sync Script.subprocess_run Script.time_time
                    example_config ermine (Script.time_time w).2
                  = (Ok snap, w'))
           \/ (cache' = <[name ermine := snap]> example_cache
               /\ (true = false \/ example_cache !! name ermine = None)
               /\ _check_server_sync Script.subprocess_run Script.time_time
                    example_config ermine w = (Ok snap, w'))).
Proof.
  intros w. split; [exact example_cache_ok|].
  exact (check_server_cache_discipline Script.subprocess_run Script.time_time
           example_config ermine true example_cache w example_cache_ok).
Defined.

(** Within the TTL the failed check of [ermine] is served from the cache,
    without any remote command; after it, the host is checked again and the
    new snapshot replaces the cached one. *)
Example cache_hit_then_refresh :
  let hit :=
    check_server Script.subprocess_run Script.time_time example_config
      ermine true (example_cache, Script.World 1029 [Script.exit0 "12.5"]) in
  let miss :=
    check_server Script.subprocess_run Script.time_time example_config
      ermine true
      (example_cache,
       Script.World 1030
         [Script.exit0 "12.5"; Script.exit0 "40";
         Script.exit0 "0.1 0.2 0.3"]) in
  hit.1 = Ok (default ∅ (example_cache !! "ermine"))
  /\ hit.2.2 = Script.World 1030 [Script.exit0 "12.5"]
  /\ hit.2.1 = example_cache
  /\ (fun d : snapshot => d !! "online") <$> miss.1 = Ok (Some (PBool true))
  /\ (fun d : snapshot => d !! "checked_at") <$> miss.1
     = Ok (Some (PFloat (FFin 1031)))
  /\ Ok <$> (miss.2.1 !! "ermine") = Some miss.1
  /\ Script.replies miss.2.2 = [].
Proof. repeat split; reflexivity. Qed.


(** The two orders of completion give the same list, in the order of the
    request; the cache ends with both snapshots either way. *)
Example completion_order_is_irrelevant :
  let run sched :=
    (check_servers Script.subprocess_run Script.time_time example_config
       [orca01; ermine] true unreachable sched
       (∅, Script.World 1000 [])).1 in
  let names (r : option (res (list snapshot))) :=
    match r with
    | Some (Ok ds) => Some ((fun d : snapshot => d !! "name") <$> ds)
    | _ => None
    end in
  run [0%nat; 1%nat] = run [1%nat; 0%nat]
  /\ names (run [1%nat; 0%nat])
     = Some [Some (PStr "orca01"); Some (PStr "ermine")]
  /\ run [1%nat] = None.
Proof. repeat split; reflexivity. Qed.
